(** * Fluorescence-spectrum dashboard: cursor reconciliation, spectrum
      loading and plot composition of [src/app.py].

    The loader [load_spectra] and the callbacks [sync_inputs] and
    [update_plot] are embedded as pure functions.  Python exceptions are
    values of an error monad, Python floats are IEEE binary64 numbers (the executable model [spec_float] of the Standard
    Library, precision 53, maximal exponent 1024), dictionaries are finite
    maps, and a pandas frame is a list of rows that carry their index label
    next to their two numeric cells.  Numbers are modelled as binary64
    throughout; pandas holds whole-number columns as int64 and Python whole
    numbers as int, which agrees with binary64 for magnitudes up to 2^52
    (see [small]). *)

From Stdlib Require Import ZArith String Ascii List Bool Lia.
From Stdlib Require Import Floats.SpecFloat.
From Stdlib Require Import DecimalString.
From stdpp Require Import gmap strings list.

Local Open Scope string_scope.

(** ** Python floats *)

Definition float := spec_float.

Definition prec : Z := 53.
Definition emax : Z := 1024.

Definition nan : float := S754_nan.
Definition pos_inf : float := S754_infinity false.

Definition is_nan (x : float) : bool :=
  match x with
  | S754_nan => true
  | _ => false
  end.

(** [x - y], [abs(x)] and [x < y] on floats. *)
Definition fsub (x y : float) : float := SFsub prec emax x y.
Definition fabs (x : float) : float := SFabs x.
Definition flt (x y : float) : bool := SFltb x y.
Definition fle (x y : float) : bool := SFleb x y.

(** The float nearest to an integer. *)
Definition of_Z (n : Z) : float := binary_normalize prec emax n 0 false.

(** The float denoted by a decimal literal with [scale] digits after the
    point: [decimal 12345 3] is the literal [12.345].  Both operands of the
    division are exact for the literals used here (fewer than 16 digits), so
    the single rounding of the division gives the nearest float. *)
Definition decimal (digits : Z) (scale : nat) : float :=
  SFdiv prec emax (of_Z digits) (of_Z (10 ^ Z.of_nat scale)).

(** ** The format specification [.2f]

    Python prints the exact binary value rounded to two decimals, ties to
    even, and keeps the sign also when the digits are all zero. *)

Definition round_half_even (n d : Z) : Z :=
  let q := (n / d)%Z in
  let r := (n mod d)%Z in
  match (2 * r ?= d)%Z with
  | Lt => q
  | Gt => (q + 1)%Z
  | Eq => if Z.even q then q else (q + 1)%Z
  end.

(** The magnitude [m * 2^e], in hundredths, rounded. *)
Definition hundredths (m : positive) (e : Z) : Z :=
  match e with
  | Zneg p => round_half_even (100 * Zpos m) (2 ^ Zpos p)
  | _ => (100 * Zpos m * 2 ^ e)%Z
  end.

Definition digit_char (d : Z) : ascii := ascii_of_nat (48 + Z.to_nat d).

Definition show_Z (n : Z) : string :=
  NilZero.string_of_uint (N.to_uint (Z.to_N n)).

Definition two_digits (n : Z) : string :=
  String (digit_char (n / 10)) (String (digit_char (n mod 10)) EmptyString).

Definition sign_prefix (s : bool) : string := if s then "-" else EmptyString.

Definition format_2f (x : float) : string :=
  match x with
  | S754_nan => "nan"
  | S754_infinity s => sign_prefix s ++ "inf"
  | S754_zero s => sign_prefix s ++ "0.00"
  | S754_finite s m e =>
      let h := hundredths m e in
      sign_prefix s ++ show_Z (h / 100) ++ "." ++ two_digits (h mod 100)
  end.

(** ** Python values and exceptions *)

(** A value delivered by a slider, a numeric entry or a click: a number,
    or [None] (an emptied numeric entry). *)
Inductive value : Type :=
  | VNone
  | VNum (x : float).

Inductive exn : Type :=
  | TypeError
  | IndexError
  | KeyError
  | ValueError.

Inductive result (A : Type) : Type :=
  | Ok (a : A)
  | Raise (e : exn).

Arguments Ok {A} a.
Arguments Raise {A} e.

Definition bind {A B : Type} (r : result A) (k : A -> result B) : result B :=
  match r with
  | Ok a => k a
  | Raise e => Raise e
  end.

Notation "x <- r ;; k" := (bind r (fun x => k))
  (at level 100, r at next level, right associativity).

(** [l[i]] for a non-negative index. *)
Definition py_index {A : Type} (l : list A) (i : nat) : result A :=
  match l !! i with
  | Some a => Ok a
  | None => Raise IndexError
  end.

(** Arithmetic on a value: [None] is not a number. *)
Definition as_number (v : value) : result float :=
  match v with
  | VNum x => Ok x
  | VNone => Raise TypeError
  end.

(** ** Substring test: [needle in hay] *)

Fixpoint contains (needle hay : string) : bool :=
  if String.prefix needle hay then true
  else match hay with
       | EmptyString => false
       | String _ rest => contains needle rest
       end.

(** ** sync_inputs: reconciliation of sliders, numeric entries and clicks *)

(** [click_data]: [None], or the dictionary whose ['points'] list holds the
    clicked points, each with its ['x'] coordinate. *)
Record point : Type := { point_x : value }.
Record click : Type := { points : list point }.

(** [ctx.triggered[0]['prop_id'] if ctx.triggered else None]; the context
    is the list of the property identifiers that fired. *)
Definition trigger_id (triggered : list string) : option string :=
  match triggered with
  | [] => None
  | prop_id :: _ => Some prop_id
  end.

(** [needle in trigger_id]: a membership test on [None] raises. *)
Definition py_in (needle : string) (t : option string) : result bool :=
  match t with
  | None => Raise TypeError
  | Some s => Ok (contains needle s)
  end.

(** [str(trigger_id)] *)
Definition py_str (t : option string) : string :=
  match t with
  | None => "None"
  | Some s => s
  end.

(** [click_data['points'][0]['x']] *)
Definition clicked_x (click_data : option click) : result value :=
  match click_data with
  | None => Raise TypeError
  | Some c => p <- py_index (points c) 0 ;; Ok (point_x p)
  end.

Definition sync_inputs (triggered : list string)
    (slider_values input_values : list value) (click_data : option click)
    : result (list value * list value) :=
  let trigger := trigger_id triggered in
  is_click <- py_in "spectra-plot.clickData" trigger ;;
  if is_click : bool then
    clicked_wavelength <- clicked_x click_data ;;
    let updated_values := replicate (length slider_values) clicked_wavelength in
    Ok (updated_values, updated_values)
  else
    let updated_values :=
      if contains "cursor-input" (py_str trigger)
      then input_values else slider_values in
    Ok (updated_values, updated_values).

(** The property identifiers Dash gives to the triggers: the chart's click
    property, and the JSON form of a pattern-matching identifier (keys
    sorted) followed by the property name. *)
Definition dq : string := String (ascii_of_nat 34) EmptyString.

Definition click_prop : string := "spectra-plot.clickData".

Definition pattern_prop (type case_key slot : string) : string :=
  "{" ++ dq ++ "case" ++ dq ++ ":" ++ dq ++ case_key ++ dq ++ ","
    ++ dq ++ "cursor" ++ dq ++ ":" ++ slot ++ ","
    ++ dq ++ "type" ++ dq ++ ":" ++ dq ++ type ++ dq ++ "}.value".

Definition slider_prop : string -> string -> string := pattern_prop "cursor-slider".
Definition input_prop : string -> string -> string := pattern_prop "cursor-input".

(** ** The case registry *)

Record case_info : Type :=
  { file : string; color : string; description : string }.

Definition cases : gmap string case_info :=
  list_to_map
    [ ("Blank",
       {| file := "data/t-white-blank.txt"; color := "black";
          description := "Blank" |});
      ("Case 1",
       {| file := "data/t-1white.txt"; color := "red";
          description := "10µL FITC-BSA with 290µL water" |});
      ("Case 2",
       {| file := "data/t-2white.txt"; color := "green";
          description := "20µL FITC-BSA with 280µL water" |});
      ("Case 3",
       {| file := "data/t-3white.txt"; color := "blue";
          description := "30µL FITC-BSA with 270µL water" |});
      ("Case 4",
       {| file := "data/t-4white.txt"; color := "orange";
          description := "50µL FITC-BSA with 250µL water" |}) ].

(** ** Frames and series *)

(** An index label: an integer, or a single label of another kind (a
    float, a text), kept as the text that was read. *)
Inductive index_label : Type :=
  | IntLabel (z : Z)
  | OtherLabel (text : string).

(** The label a range index gives to a position. *)
Definition position_label (n : nat) : index_label := IntLabel (Z.of_nat n).

(** A row of the frame: its index label and the columns ['nm'] and
    ['percentage']. *)
Record row : Type := { label : index_label; nm : float; percentage : float }.

Definition frame := list row.

(** A series: index labels with their values. *)
Definition series := list (index_label * float).

Definition column_nm (data : frame) : series :=
  map (fun r => (label r, nm r)) data.

Definition column_percentage (data : frame) : series :=
  map (fun r => (label r, percentage r)) data.

Definition series_values (s : series) : list float := map snd s.
Definition series_index (s : series) : list index_label := map fst s.

(** [s - v] for a scalar [v] *)
Definition series_sub (s : series) (v : value) : result series :=
  x <- as_number v ;;
  Ok (map (fun p => (fst p, fsub (snd p) x)) s).

(** [s.abs()] *)
Definition series_abs (s : series) : series :=
  map (fun p => (fst p, fabs (snd p))) s.

(** [DataFrame.dropna()]: the rows with a missing cell go, the others keep
    their labels. *)
Definition has_na (r : row) : bool := is_nan (nm r) || is_nan (percentage r).

Definition dropna (data : frame) : frame :=
  List.filter (fun r => negb (has_na r)) data.

(** [data.empty] *)
Definition frame_empty (data : frame) : bool :=
  match data with
  | [] => true
  | _ :: _ => false
  end.

(** The position of the first least value, by a left-to-right scan. *)
Fixpoint argmin_from (best_pos : nat) (best : float) (pos : nat)
    (values : list float) : nat :=
  match values with
  | [] => best_pos
  | v :: rest =>
      if flt v best then argmin_from pos v (S pos) rest
      else argmin_from best_pos best (S pos) rest
  end.

Definition fill_inf (x : float) : float := if is_nan x then pos_inf else x.

(** The position of the least value, missing values skipped: they count
    as plus infinity, and a series that holds nothing but missing values
    has no least. *)
Definition nanargmin (values : list float) : result nat :=
  if forallb is_nan values then Raise ValueError
  else match map fill_inf values with
       | [] => Raise ValueError
       | v :: rest => Ok (argmin_from 0 v 1 rest)
       end.

(** [s.idxmin()]: the index LABEL of the first least value. *)
Definition idxmin (s : series) : result index_label :=
  pos <- nanargmin (series_values s) ;;
  py_index (series_index s) pos.

(** [data.iloc[key]]: the row at POSITION [key]. A negative position
    counts from the end; a key that is not an integer raises [TypeError]. *)
Definition iloc (data : frame) (key : index_label) : result row :=
  match key with
  | IntLabel z =>
      if (0 <=? z)%Z then py_index data (Z.to_nat z)
      else if (- Z.of_nat (length data) <=? z)%Z
           then py_index data (Z.to_nat (Z.of_nat (length data) + z))
           else Raise IndexError
  | OtherLabel _ => Raise TypeError
  end.

(** [s.max()], missing values skipped. *)
Definition fmax (a b : float) : float := if flt a b then b else a.

Definition series_max (s : series) : float :=
  match List.filter (fun x => negb (is_nan x)) (series_values s) with
  | [] => nan
  | v :: rest => fold_left fmax rest v
  end.

(** ** The figure *)

Record trace : Type :=
  { trace_x : list float; trace_y : list float;
    trace_color : string; trace_name : string }.

Record shape : Type :=
  { shape_x0 : value; shape_x1 : value;
    shape_y0 : float; shape_y1 : float; shape_color : string }.

Record annotation : Type :=
  { annotation_x : value; annotation_y : float;
    annotation_text : string; annotation_color : string }.

Record layout : Type :=
  { title : string; xaxis_title : string; yaxis_title : string;
    hovermode : string; template : string }.

Record figure : Type :=
  { traces : list trace; shapes : list shape;
    annotations : list annotation; fig_layout : option layout }.

(** [go.Figure()] *)
Definition new_figure : figure :=
  {| traces := []; shapes := []; annotations := []; fig_layout := None |}.

Definition add_trace (fig : figure) (t : trace) : figure :=
  {| traces := traces fig ++ [t]; shapes := shapes fig;
     annotations := annotations fig; fig_layout := fig_layout fig |}.

Definition add_shape (fig : figure) (s : shape) : figure :=
  {| traces := traces fig; shapes := shapes fig ++ [s];
     annotations := annotations fig; fig_layout := fig_layout fig |}.

Definition add_annotation (fig : figure) (a : annotation) : figure :=
  {| traces := traces fig; shapes := shapes fig;
     annotations := annotations fig ++ [a]; fig_layout := fig_layout fig |}.

Definition update_layout (fig : figure) : figure :=
  {| traces := traces fig; shapes := shapes fig;
     annotations := annotations fig;
     fig_layout :=
       Some {| title := "Fluorescence Spectrum Analysis";
               xaxis_title := "Wavelength (nm)";
               yaxis_title := "Intensity (%)";
               hovermode := "closest";
               template := "plotly_white" |} |}.

(** ** Pieces of update_plot that do not read files *)

(** A loop whose body may raise. *)
Fixpoint for_each {S A : Type} (body : S -> A -> result S) (st : S)
    (l : list A) : result S :=
  match l with
  | [] => Ok st
  | a :: rest => st' <- body st a ;; for_each body st' rest
  end.

(** The first loop: [cursor_map[case_key] = {1: ..., 2: ...}] for the
    cases from position [i] on. *)
Fixpoint fill_cursor_map (i : nat) (selected_cases : list string)
    (slider_values : list value) (cursor_map : gmap string (value * value))
    : result (gmap string (value * value)) :=
  match selected_cases with
  | [] => Ok cursor_map
  | case_key :: rest =>
      let cursor_start := i * 2 in
      c1 <- py_index slider_values cursor_start ;;
      c2 <- py_index slider_values (cursor_start + 1) ;;
      fill_cursor_map (S i) rest slider_values
        (<[case_key := (c1, c2)]> cursor_map)
  end.

(** [cursor_map[case_key]] *)
Definition cursors_of (cursor_map : gmap string (value * value))
    (case_key : string) : result (value * value) :=
  match cursor_map !! case_key with
  | Some c => Ok c
  | None => Raise KeyError
  end.

(** [(data['nm'] - cursor).abs().idxmin()] *)
Definition nearest_label (data : frame) (cursor : value)
    : result index_label :=
  d <- series_sub (column_nm data) cursor ;;
  idxmin (series_abs d).

(** [data.iloc[idx]['percentage']] *)
Definition intensity_at (data : frame) (idx : index_label) : result float :=
  r <- iloc data idx ;; Ok (percentage r).

(** The nearest-sample resolution of one cursor: the two steps above. *)
Definition resolve (data : frame) (cursor : value) : result float :=
  idx <- nearest_label data cursor ;;
  intensity_at data idx.

(** [f"{cursor:.2f} nm"] *)
Definition cursor_text (cursor : value) : result string :=
  x <- as_number cursor ;; Ok (format_2f x ++ " nm").

(** [f"Δλ = {abs(cursor2 - cursor1):.2f} nm, ΔI = {abs(i2 - i1):.2f}%"] *)
Definition delta_summary (cursor1 cursor2 : value) (i1 i2 : float)
    : result string :=
  x2 <- as_number cursor2 ;;
  x1 <- as_number cursor1 ;;
  Ok ("Δλ = " ++ format_2f (fabs (fsub x2 x1)) ++ " nm, ΔI = "
        ++ format_2f (fabs (fsub i2 i1)) ++ "%").

(** ** Nearest samples

    The distance the resolution compares, and what it is to be the first
    of the samples nearest to a wavelength. *)

Definition distance (w : float) (r : row) : float := fabs (fsub (nm r) w).

Definition first_nearest (data : frame) (w : float) (p : nat) (r : row)
    : Prop :=
  data !! p = Some r /\
  (forall r', r' ∈ data -> fle (distance w r) (distance w r') = true) /\
  (forall q r', q < p -> data !! q = Some r' ->
     flt (distance w r) (distance w r') = true).

(** No value is missing. *)
Definition no_nan (values : list float) : Prop :=
  forall v, v ∈ values -> is_nan v = false.

(** [m], at position [p] of [values], is the first least value. *)
Definition first_least (values : list float) (p : nat) (m : float) : Prop :=
  values !! p = Some m /\
  (forall v, v ∈ values -> fle m v = true) /\
  (forall q v, q < p -> values !! q = Some v -> flt m v = true).

(** The labels are the positions: no row was dropped. *)
Definition range_index (data : frame) : Prop :=
  map label data = map position_label (seq 0 (length data)).

(** Numbers of magnitude at most 2^52. Whole numbers in this range, their
    differences and their comparisons are exact in binary64, so on them
    the arithmetic of an int64 column or of a Python int is the arithmetic
    modelled here. *)
Definition small (x : float) : bool := fle (fabs x) (of_Z (2 ^ 52)).

Definition small_row (r : row) : bool := small (nm r) && small (percentage r).

Definition small_number (v : value) : bool :=
  match v with
  | VNum x => small x
  | VNone => false
  end.

(** The rows of a file whose lines have two fields: pandas labels them by
    position. *)
Definition range_indexed {A : Type} (table : list A)
    : list (index_label * A) :=
  imap (fun i fields => (position_label i, fields)) table.

Definition label_eqb (a b : index_label) : bool :=
  match a, b with
  | IntLabel x, IntLabel y => Z.eqb x y
  | OtherLabel u, OtherLabel v => String.eqb u v
  | _, _ => false
  end.

(** The labels are those of the positions [n], [n + 1], ... *)
Fixpoint range_labels_from (n : nat) (labels : list index_label) : bool :=
  match labels with
  | [] => true
  | l :: rest => label_eqb l (position_label n) && range_labels_from (S n) rest
  end.

Definition range_labelled {A : Type} (rows : list (index_label * A)) : bool :=
  range_labels_from 0 (map fst rows).

(** ** The loader and the plot composer

    What pandas reads from the file system is a parameter. [read_csv]
    gives the rows it read, each with its index label and the text of
    its two data fields, or nothing when reading raises. The label is the
    position for a file whose lines have two fields; for a file whose
    lines have three, pandas takes the leading field as the label. Files
    with still more fields, whose labels are tuples, are left out.
    [to_numeric] tells what a field converts to within its column, the
    column being converted as a whole: type inference of [read_csv]
    followed by [pd.to_numeric], so that the same text may convert in one
    column and not in another. A field that converts gives a number; the
    texts pandas reads as missing do not convert. *)

Class Pandas : Type :=
  { read_csv : string -> option (list (index_label * (string * string)));
    to_numeric : list string -> string -> option float;
    to_numeric_number :
      forall column field x,
        to_numeric column field = Some x -> is_nan x = false }.

(** [errors='coerce']: a field that does not convert becomes the missing
    value. *)
Definition coerce (o : option float) : float :=
  match o with
  | Some x => x
  | None => nan
  end.

Definition not_numeric (o : option float) : bool :=
  match o with
  | Some _ => false
  | None => true
  end.

Section Composer.

Context {pd : Pandas}.

(** A row of text with its cells converted, [c1] and [c2] being the two
    columns of the table the row belongs to. *)
Definition convert_row (c1 c2 : list string)
    (r : index_label * (string * string)) : row :=
  {| label := fst r;
     nm := coerce (to_numeric c1 (fst (snd r)));
     percentage := coerce (to_numeric c2 (snd (snd r))) |}.

(** [data.apply(pd.to_numeric, errors='coerce')] *)
Definition convert_rows (rows : list (index_label * (string * string)))
    : frame :=
  map (convert_row (map (fun r => fst (snd r)) rows)
                   (map (fun r => snd (snd r)) rows)) rows.

(** The frame of a table of two-field lines: rows labelled 0, 1, 2, ... *)
Definition numeric_frame (table : list (string * string)) : frame :=
  convert_rows (range_indexed table).

(** Either field of the row fails numeric conversion. *)
Definition fails_in (c1 c2 : list string)
    (r : index_label * (string * string)) : bool :=
  not_numeric (to_numeric c1 (fst (snd r)))
  || not_numeric (to_numeric c2 (snd (snd r))).

Definition fails_conversion (rows : list (index_label * (string * string)))
    : index_label * (string * string) -> bool :=
  fails_in (map (fun r => fst (snd r)) rows) (map (fun r => snd (snd r)) rows).

(** What the specification asks of the loader: a row both of whose fields
    convert is kept, with its label and the two numbers; any other row is
    left out. *)
Definition surviving_row (c1 c2 : list string)
    (r : index_label * (string * string)) : option row :=
  match to_numeric c1 (fst (snd r)), to_numeric c2 (snd (snd r)) with
  | Some x, Some y => Some {| label := fst r; nm := x; percentage := y |}
  | _, _ => None
  end.

Definition surviving_rows (rows : list (index_label * (string * string)))
    : frame :=
  omap (surviving_row (map (fun r => fst (snd r)) rows)
                      (map (fun r => snd (snd r)) rows)) rows.

Definition load_spectra (file_path : string) : option frame :=
  match read_csv file_path with
  | None => None
  | Some rows => Some (dropna (convert_rows rows))
  end.

(** The body of the second loop, on the figure and the delta outputs
    built so far. *)
Definition plot_case (cursor_map : gmap string (value * value))
    (st : figure * list string) (case_key : string)
    : result (figure * list string) :=
  match cases !! case_key with
  | None => Ok st
  | Some case =>
      match load_spectra (file case) with
      | None => Ok st
      | Some data =>
          if frame_empty data then Ok st
          else
            let fig := add_trace (fst st)
              {| trace_x := series_values (column_nm data);
                 trace_y := series_values (column_percentage data);
                 trace_color := color case;
                 trace_name := description case |} in
            c <- cursors_of cursor_map case_key ;;
            let cursor1 := fst c in
            let cursor2 := snd c in
            idx1 <- nearest_label data cursor1 ;;
            idx2 <- nearest_label data cursor2 ;;
            i1 <- intensity_at data idx1 ;;
            i2 <- intensity_at data idx2 ;;
            let top := series_max (column_percentage data) in
            let fig := add_shape fig
              {| shape_x0 := cursor1; shape_x1 := cursor1;
                 shape_y0 := of_Z 0; shape_y1 := top;
                 shape_color := color case |} in
            let fig := add_shape fig
              {| shape_x0 := cursor2; shape_x1 := cursor2;
                 shape_y0 := of_Z 0; shape_y1 := top;
                 shape_color := color case |} in
            text1 <- cursor_text cursor1 ;;
            let fig := add_annotation fig
              {| annotation_x := cursor1; annotation_y := top;
                 annotation_text := text1;
                 annotation_color := color case |} in
            text2 <- cursor_text cursor2 ;;
            let fig := add_annotation fig
              {| annotation_x := cursor2; annotation_y := top;
                 annotation_text := text2;
                 annotation_color := color case |} in
            diff_output <- delta_summary cursor1 cursor2 i1 i2 ;;
            Ok (fig, (snd st ++ [diff_output])%list)
      end
  end.

Definition update_plot (slider_values : list value)
    (selected_cases : list string) : result (figure * list string) :=
  cursor_map <- fill_cursor_map 0 selected_cases slider_values ∅ ;;
  st <- for_each (plot_case cursor_map) (new_figure, []) selected_cases ;;
  Ok (update_layout (fst st), snd st).

Definition registered (case_key : string) : bool :=
  match cases !! case_key with
  | Some _ => true
  | None => false
  end.

(** The spectrum of a registered case is unavailable when its source
    cannot be read or no row is left after the invalid ones are gone. *)
Definition spectrum_unavailable (case_key : string) : bool :=
  match cases !! case_key with
  | None => false
  | Some case =>
      match load_spectra (file case) with
      | None => true
      | Some data => frame_empty data
      end
  end.

(** The selected cases that get past both [continue] statements. *)
Definition yields_curve (case_key : string) : bool :=
  registered case_key && negb (spectrum_unavailable case_key).

End Composer.

(** ** A concrete reader for the examples

    [plain_decimal] converts an unsigned decimal numeral with at most one
    point, whatever its column; it does not convert any other field. It
    is a stand-in for the examples, not the converter of pandas: it agrees
    with pandas on such numerals of up to 15 digits, which is all the
    examples hold, while pandas also converts signs, exponents and
    infinities. *)

Definition is_digit (c : ascii) : bool :=
  let n := nat_of_ascii c in (48 <=? n)%nat && (n <=? 57)%nat.

Definition digit_of (c : ascii) : Z := Z.of_nat (nat_of_ascii c - 48).

Fixpoint scan_decimal (s : string) (acc : Z) (frac : option nat)
    (seen : bool) : option (Z * nat) :=
  match s with
  | EmptyString =>
      if seen then Some (acc, match frac with Some k => k | None => 0%nat end)
      else None
  | String c rest =>
      if is_digit c then
        scan_decimal rest (10 * acc + digit_of c)%Z
          (match frac with Some k => Some (S k) | None => None end) true
      else if Ascii.eqb c "." then
        match frac with
        | None => scan_decimal rest acc (Some 0%nat) seen
        | Some _ => None
        end
      else None
  end.

(** The field is an unsigned decimal numeral with at most one point. *)
Definition plain_numeral (field : string) : bool :=
  match scan_decimal field 0 None false with
  | Some _ => true
  | None => false
  end.

Definition only_number (x : float) : option float :=
  if is_nan x then None else Some x.

Definition plain_decimal (column : list string) (field : string)
    : option float :=
  match scan_decimal field 0 None false with
  | Some (digits, scale) => only_number (decimal digits scale)
  | None => None
  end.

Definition plain_decimal_number (column : list string) (field : string)
    (x : float) :
  plain_decimal column field = Some x -> is_nan x = false.
Proof.
  unfold plain_decimal, only_number.
  destruct (scan_decimal field 0 None false) as [[digits scale]|];
    [|discriminate].
  destruct (is_nan (decimal digits scale)) eqn:E; [discriminate|].
  intros H. injection H as <-. exact E.
Qed.

(** Files for the examples, all of two-field lines: the file of "Blank"
    starts with a heading line, the file of "Case 1" is clean, the file of
    "Case 2" holds no number at all, and the other files cannot be
    read. *)
Definition headed_table : list (string * string) :=
  [ ("nm", "percentage"); ("500", "1"); ("550", "5"); ("600", "2") ].

Definition clean_table : list (string * string) :=
  [ ("462.7", "12.345"); ("560", "8.0"); ("650", "3.5") ].

Definition text_table : list (string * string) :=
  [ ("nm", "percentage"); ("n/a", "n/a") ].

Definition demo_files (file_path : string)
    : option (list (index_label * (string * string))) :=
  if String.eqb file_path "data/t-white-blank.txt"
  then Some (range_indexed headed_table)
  else if String.eqb file_path "data/t-1white.txt"
  then Some (range_indexed clean_table)
  else if String.eqb file_path "data/t-2white.txt"
  then Some (range_indexed text_table)
  else None.

Definition demo_pandas : Pandas :=
  {| read_csv := demo_files; to_numeric := plain_decimal;
     to_numeric_number := plain_decimal_number |}.

(** No file can be read. *)
Definition no_files : Pandas :=
  {| read_csv := fun _ => None; to_numeric := plain_decimal;
     to_numeric_number := plain_decimal_number |}.

(** ** Clean files

    A clean file: it has a line, every line has two fields (so that the
    rows are labelled by position), every field is an unsigned decimal
    numeral (so that pandas holds both columns as int64 or float64) and
    every cell is a number of small magnitude. *)
Definition clean_rows {pd : Pandas}
    (rows : list (index_label * (string * string))) : bool :=
  negb (frame_empty (convert_rows rows))
  && range_labelled rows
  && forallb (fun r => plain_numeral (fst (snd r))
                       && plain_numeral (snd (snd r))) rows
  && forallb small_row (convert_rows rows).

(** [click_data] holds at least one clicked point. *)
Definition click_has_point (click_data : option click) : bool :=
  match click_data with
  | Some {| points := _ :: _ |} => true
  | _ => false
  end.

(** ** The layout and the generated controls *)

(** Component identifiers: a plain name, the dictionary of a cursor control
    ([{'type': ..., 'case': ..., 'cursor': ...}]) and the dictionary of a
    delta display ([{'type': ..., 'case': ...}]). *)
Inductive component_id : Type :=
  | Name (name : string)
  | CursorId (type case_key : string) (cursor : nat)
  | CaseId (type case_key : string).

Definition style := list (string * string).

#[warnings="-register-all"]
Inductive component : Type :=
  | Div (id : option component_id) (children : list component) (st : style)
  | H4 (text : string) (st : style)
  | Label (text : string)
  | Input (id : component_id) (type : string) (lo hi step : float)
      (v : value) (st : style)
  | Slider (lo hi step : float) (v : value) (marks : list (Z * string))
      (id : component_id)
  | Hr
  | Graph (id : component_id)
  | Checklist (id : component_id) (options : list (string * string))
      (selected : list string) (inline : bool).

(** [range(start, stop, step)] for a positive step *)
Definition py_range (start stop step : Z) : list Z :=
  map (fun j => (start + step * Z.of_nat j)%Z)
    (seq 0 (Z.to_nat ((stop - start + step - 1) / step))).

(** [{i: str(i) for i in range(450, 700, 50)}] *)
Definition slider_marks : list (Z * string) :=
  map (fun i => (i, show_Z i)) (py_range 450 700 50).

(** One cursor block of [create_controls]: label, numeric entry, slider. *)
Definition cursor_block (case_key : string) (cursor : nat) (text : string)
    (v : float) : component :=
  Div None
    [ Label text;
      Input (CursorId "cursor-input" case_key cursor) "number"
        (of_Z 450) (of_Z 700) (decimal 1 1) (VNum v)
        [("width", "100px"); ("margin-left", "10px")];
      Slider (of_Z 450) (of_Z 700) (decimal 1 1) (VNum v) slider_marks
        (CursorId "cursor-slider" case_key cursor) ]
    [("margin-bottom", "20px")].

(** [cases[case_key]] raises on a key the registry does not hold. *)
Definition create_controls (case_key : string) : result component :=
  match cases !! case_key with
  | None => Raise KeyError
  | Some case =>
      Ok (Div None
            [ H4 (description case) [("color", color case)];
              Div None
                [ cursor_block case_key 1 "Cursor 1" (decimal 4627 1);
                  cursor_block case_key 2 "Cursor 2" (of_Z 560);
                  Div (Some (CaseId "diff-output" case_key)) []
                    [("color", color case); ("fontWeight", "bold")] ]
                [];
              Hr ]
            [])
  end.

(** A list comprehension whose element expression may raise. *)
Fixpoint comprehension {A B : Type} (f : A -> result B) (l : list A)
    : result (list B) :=
  match l with
  | [] => Ok []
  | a :: rest =>
      b <- f a ;;
      bs <- comprehension f rest ;;
      Ok (b :: bs)
  end.

Definition update_controls (selected_cases : list string)
    : result (list component) :=
  comprehension create_controls selected_cases.

(** [cases.keys()], in the order of the registry. *)
Definition case_keys : list string :=
  [ "Blank"; "Case 1"; "Case 2"; "Case 3"; "Case 4" ].

(** [app.layout] *)
Definition app_layout : component :=
  Div None
    [ Graph (Name "spectra-plot");
      Checklist (Name "case-selector") (map (fun k => (k, k)) case_keys)
        ["Blank"] true;
      Div (Some (Name "controls-container")) [] [] ]
    [].

(** The cursor controls of one type ("cursor-slider" or "cursor-input")
    in a component, in document order, each with its case, its slot and
    its value: what a callback receives for the pattern
    [{'type': type, 'case': ALL, 'cursor': ALL}]. *)
Definition cursor_match (type : string) (id : component_id) (v : value)
    : list (string * nat * value) :=
  match id with
  | CursorId t case_key cursor =>
      if String.eqb t type then [(case_key, cursor, v)] else []
  | _ => []
  end.

Fixpoint cursor_controls (type : string) (c : component)
    : list (string * nat * value) :=
  match c with
  | Div _ children _ => flat_map (cursor_controls type) children
  | Input id _ _ _ _ v _ => cursor_match type id v
  | Slider _ _ _ v _ id => cursor_match type id v
  | _ => []
  end.

(** The cases of the delta displays in a component, in document order:
    the pattern [{'type': 'diff-output', 'case': ALL}]. *)
Fixpoint diff_displays (c : component) : list string :=
  match c with
  | Div (Some (CaseId t case_key)) children _ =>
      if String.eqb t "diff-output"
      then case_key :: flat_map diff_displays children
      else flat_map diff_displays children
  | Div _ children _ => flat_map diff_displays children
  | _ => []
  end.

(** The options of the checklist of a layout. *)
Fixpoint checklist_options (c : component) : list string :=
  match c with
  | Div _ children _ => flat_map checklist_options children
  | Checklist _ options _ _ => map snd options
  | _ => []
  end.

(** The values the callbacks receive from a list of control blocks. *)
Definition cursor_values (type : string) (children : list component)
    : list value :=
  map snd (flat_map (cursor_controls type) children).

(** The two cursor controls a selected case starts with. *)
Definition default_cursors (case_key : string) : list (string * nat * value) :=
  [ (case_key, 1, VNum (decimal 4627 1)); (case_key, 2, VNum (of_Z 560)) ].

(** ** What a case adds to the figure *)

Section Curves.

Context {pd : Pandas}.

(** The curve of a case: its loaded samples with the colour and the
    description of the registry; none for a case that is skipped. *)
Definition curve_of (case_key : string) : list trace :=
  match cases !! case_key with
  | None => []
  | Some case =>
      match load_spectra (file case) with
      | None => []
      | Some data =>
          if frame_empty data then []
          else [ {| trace_x := series_values (column_nm data);
                    trace_y := series_values (column_percentage data);
                    trace_color := color case;
                    trace_name := description case |} ]
      end
  end.

End Curves.

(** A marker is vertical and starts at zero. *)
Definition vertical_from_zero (s : shape) : Prop :=
  shape_x0 s = shape_x1 s /\ shape_y0 s = of_Z 0.

(** The property identifier of the value of a cursor control, as the
    callback context names it. *)
Definition cursor_prop (type case_key : string) (cursor : nat) : string :=
  pattern_prop type case_key (show_Z (Z.of_nat cursor)).

(** ** Finite floats *)

Definition is_finite (x : float) : bool :=
  match x with
  | S754_zero _ | S754_finite _ _ _ => true
  | _ => false
  end.

(** ** Proof steps *)

(** Inversion of a sequence of binds that returned. *)
Ltac bind_inv H :=
  repeat match type of H with
         | bind ?r _ = Ok _ =>
             let E := fresh "E" in
             destruct r eqn:E; simpl in H; [|discriminate H]
         end.

(** Case analysis on the comparisons of exponents and mantissas. *)
Ltac order_cases :=
  repeat match goal with
         | H : context [Pos.compare_cont Eq ?a ?b] |- _ =>
             change (Pos.compare_cont Eq a b) with (Pos.compare a b) in H
         | |- context [Pos.compare_cont Eq ?a ?b] =>
             change (Pos.compare_cont Eq a b) with (Pos.compare a b)
         end;
  repeat match goal with
         | H : context [Z.compare ?a ?b] |- _ =>
             destruct (Z.compare_spec a b); simpl in H; try discriminate H
         | H : context [Pos.compare ?a ?b] |- _ =>
             destruct (Pos.compare_spec a b); simpl in H; try discriminate H
         | |- context [Z.compare ?a ?b] =>
             destruct (Z.compare_spec a b); simpl
         | |- context [Pos.compare ?a ?b] =>
             destruct (Pos.compare_spec a b); simpl
         end;
  subst; try reflexivity; try discriminate; try lia.

(** * Properties *)

(** ** sync_inputs *)

Lemma sync_inputs_click (t : string) (rest : list string)
    (sv iv : list value) (cd : option click) :
  contains click_prop t = true ->
  sync_inputs (t :: rest) sv iv cd =
    (w <- clicked_x cd ;;
     Ok (replicate (length sv) w, replicate (length sv) w)).
Proof.
  intros Hc. unfold sync_inputs, trigger_id, py_in, click_prop in *.
  simpl. rewrite Hc. reflexivity.
Qed.

Lemma sync_inputs_no_click (t : string) (rest : list string)
    (sv iv : list value) (cd : option click) :
  contains click_prop t = false ->
  sync_inputs (t :: rest) sv iv cd =
    if contains "cursor-input" t then Ok (iv, iv) else Ok (sv, sv).
Proof.
  intros Hc. unfold sync_inputs, trigger_id, py_in, py_str, click_prop in *.
  simpl. rewrite Hc. destruct (contains "cursor-input" t); reflexivity.
Qed.

Lemma clicked_x_point (cd : option click) :
  click_has_point cd = true -> exists w, clicked_x cd = Ok w.
Proof.
  destruct cd as [[[|p ps]]|]; simpl; try discriminate.
  intros _. exists (point_x p). reflexivity.
Qed.

(** C2. Whenever the reconciliation returns, the slider sequence and the
    numeric-entry sequence it returns are the same sequence; and it does
    return, with one sequence for both, for every trigger kind: whatever
    property fired first, as long as a click comes with its clicked point. *)
Theorem sync_inputs_outputs_agree (triggered : list string)
    (sv iv : list value) (cd : option click) :
  (forall s i, sync_inputs triggered sv iv cd = Ok (s, i) ->
     s = i /\ forall n, s !! n = i !! n) /\
  (forall t rest, triggered = t :: rest ->
     (contains click_prop t = true -> click_has_point cd = true) ->
     exists vs, sync_inputs triggered sv iv cd = Ok (vs, vs)).
Proof.
  split.
  - intros s i H. assert (s = i) as ->; [|split; reflexivity].
    destruct triggered as [|t rest]; [discriminate H|].
    destruct (contains click_prop t) eqn:Hc.
    + rewrite (sync_inputs_click _ _ _ _ _ Hc) in H.
      destruct (clicked_x cd); simpl in H; congruence.
    + rewrite (sync_inputs_no_click _ _ _ _ _ Hc) in H.
      destruct (contains "cursor-input" t); congruence.
  - intros t rest -> Hcd.
    destruct (contains click_prop t) eqn:Hc.
    + rewrite (sync_inputs_click _ _ _ _ _ Hc).
      destruct (clicked_x_point cd (Hcd eq_refl)) as [w ->]. simpl. eauto.
    + rewrite (sync_inputs_no_click _ _ _ _ _ Hc).
      destruct (contains "cursor-input" t); eauto.
Qed.

Lemma sync_inputs_outputs_agree_witness :
  exists vs,
    sync_inputs [input_prop "Blank" "1"]
      [VNum (decimal 4627 1); VNum (of_Z 560)]
      [VNum (of_Z 500); VNum (of_Z 560)] None = Ok (vs, vs).
Proof.
  apply (proj2 (sync_inputs_outputs_agree _ _ _ _) _ _ eq_refl).
  vm_compute. discriminate.
Defined.

(** C3. A click at wavelength [w], with [k] cursors, sets both returned
    sequences to [k] copies of [w], whatever the sliders and the numeric
    entries held. *)
Theorem sync_inputs_click_broadcast (t : string) (rest : list string)
    (sv iv : list value) (w : value) (ps : list point) (k : nat) :
  contains click_prop t = true ->
  length sv = k ->
  length iv = k ->
  sync_inputs (t :: rest) sv iv
      (Some {| points := {| point_x := w |} :: ps |})
    = Ok (replicate k w, replicate k w).
Proof.
  intros Hc <- _. rewrite (sync_inputs_click _ _ _ _ _ Hc). reflexivity.
Qed.

Lemma sync_inputs_click_broadcast_witness :
  sync_inputs [click_prop]
      [VNum (decimal 4627 1); VNum (of_Z 560); VNone; VNum (of_Z 700)]
      [VNum (of_Z 450); VNone; VNum (of_Z 500); VNum (of_Z 560)]
      (Some {| points := [ {| point_x := VNum (decimal 5123 1) |} ] |})
    = Ok (replicate 4 (VNum (decimal 5123 1)),
          replicate 4 (VNum (decimal 5123 1))).
Proof.
  apply sync_inputs_click_broadcast; reflexivity.
Defined.

(** C7. Without a click, the trigger identifier decides, and it is the
    identifier of the first trigger: when it names a numeric entry, the
    entry values are returned for both representations; in every other
    case, whatever else fired with it, the slider values are. *)
Theorem sync_inputs_authority (t : string) (rest : list string)
    (sv iv : list value) (cd : option click) :
  contains click_prop t = false ->
  (contains "cursor-input" t = true ->
     sync_inputs (t :: rest) sv iv cd = Ok (iv, iv)) /\
  (contains "cursor-input" t = false ->
     sync_inputs (t :: rest) sv iv cd = Ok (sv, sv)).
Proof.
  intros Hc. rewrite (sync_inputs_no_click _ _ _ _ _ Hc).
  split; intros ->; reflexivity.
Qed.

Lemma sync_inputs_authority_witness :
  sync_inputs [input_prop "Case 1" "2"]
      [VNum (of_Z 500); VNum (of_Z 560)] [VNum (of_Z 500); VNum (of_Z 610)]
      None
    = Ok ([VNum (of_Z 500); VNum (of_Z 610)],
          [VNum (of_Z 500); VNum (of_Z 610)]) /\
  sync_inputs [slider_prop "Case 1" "2"; input_prop "Case 1" "2"]
      [VNum (of_Z 500); VNum (of_Z 560)] [VNum (of_Z 500); VNum (of_Z 610)]
      None
    = Ok ([VNum (of_Z 500); VNum (of_Z 560)],
          [VNum (of_Z 500); VNum (of_Z 560)]).
Proof.
  split.
  - apply (sync_inputs_authority (input_prop "Case 1" "2")); reflexivity.
  - apply (sync_inputs_authority (slider_prop "Case 1" "2")); reflexivity.
Defined.

(** C7, as the specification words it, puts simultaneous triggers in the
    slider branch. The callback reads the first trigger only: when a
    numeric entry and a slider fire together and the entry comes first,
    the entry values are returned, not the slider values. *)
Lemma sync_inputs_simultaneous_triggers :
  sync_inputs [input_prop "Blank" "1"; slider_prop "Blank" "1"]
      [VNum (of_Z 500); VNum (of_Z 560)] [VNum (of_Z 470); VNum (of_Z 560)]
      None
    = Ok ([VNum (of_Z 470); VNum (of_Z 560)],
          [VNum (of_Z 470); VNum (of_Z 560)]) /\
  sync_inputs [input_prop "Blank" "1"; slider_prop "Blank" "1"]
      [VNum (of_Z 500); VNum (of_Z 560)] [VNum (of_Z 470); VNum (of_Z 560)]
      None
    <> Ok ([VNum (of_Z 500); VNum (of_Z 560)],
           [VNum (of_Z 500); VNum (of_Z 560)]).
Proof. split; [reflexivity | discriminate]. Qed.

(** C9. With no triggering event the trigger identifier is [None], and the
    membership test on it raises [TypeError]: the slider branch is not
    reached. *)
Theorem sync_inputs_without_trigger (sv iv : list value) (cd : option click) :
  trigger_id [] = None /\
  sync_inputs [] sv iv cd = Raise TypeError.
Proof. split; reflexivity. Qed.

(** ** The loader *)

Section LoaderProperties.

Context {pd : Pandas}.

Lemma coerce_missing (column : list string) (field : string) :
  is_nan (coerce (to_numeric column field))
  = not_numeric (to_numeric column field).
Proof.
  destruct (to_numeric column field) as [x|] eqn:E; [|reflexivity].
  simpl. apply (to_numeric_number _ _ _ E).
Qed.

Lemma convert_row_has_na (c1 c2 : list string)
    (r : index_label * (string * string)) :
  has_na (convert_row c1 c2 r) = fails_in c1 c2 r.
Proof.
  unfold has_na, fails_in, convert_row. simpl.
  rewrite !coerce_missing. reflexivity.
Qed.

(** Coercion followed by [dropna] keeps what the specification keeps. *)
Lemma dropna_convert (c1 c2 : list string)
    (l : list (index_label * (string * string))) :
  dropna (map (convert_row c1 c2) l) = omap (surviving_row c1 c2) l.
Proof.
  induction l as [|r l IH]; [reflexivity|].
  simpl. rewrite convert_row_has_na. fold (dropna (map (convert_row c1 c2) l)).
  rewrite IH. unfold fails_in, surviving_row, convert_row.
  destruct (to_numeric c1 (fst (snd r))) as [x|];
    destruct (to_numeric c2 (snd (snd r))) as [y|]; reflexivity.
Qed.

Lemma dropna_convert_labels (c1 c2 : list string)
    (l : list (index_label * (string * string))) :
  map label (dropna (map (convert_row c1 c2) l))
  = map fst (List.filter (fun r => negb (fails_in c1 c2 r)) l).
Proof.
  induction l as [|r l IH]; [reflexivity|].
  simpl. rewrite convert_row_has_na.
  destruct (fails_in c1 c2 r); simpl; [exact IH | f_equal; exact IH].
Qed.

Lemma filter_split_length {A : Type} (p : A -> bool) (l : list A) :
  length (List.filter (fun a => negb (p a)) l)
  = length l - length (List.filter p l).
Proof.
  induction l as [|a l IH]; [reflexivity|]. simpl.
  pose proof (List.filter_length_le p l).
  destruct (p a); simpl; lia.
Qed.

(** C4. Whatever table pandas reads from the source, the loader returns
    the frame the specification describes: in the order of the table, the
    rows both of whose fields convert, each with its label and with the
    two numbers its fields convert to. Its row count is the row count of
    the table less the number of rows in which a field fails conversion;
    a row with a failing field is left out as a whole, no cell of the
    frame stands in for a field that failed. *)
Theorem load_spectra_drops_failed_rows (file_path : string)
    (rows : list (index_label * (string * string))) :
  read_csv file_path = Some rows ->
  load_spectra file_path = Some (surviving_rows rows) /\
  length (surviving_rows rows)
    = length rows - length (List.filter (fails_conversion rows) rows) /\
  map label (surviving_rows rows)
    = map fst (List.filter (fun r => negb (fails_conversion rows r)) rows) /\
  forall r, r ∈ surviving_rows rows ->
    exists l f1 f2 x y,
      (l, (f1, f2)) ∈ rows /\
      to_numeric (map (fun r => fst (snd r)) rows) f1 = Some x /\
      to_numeric (map (fun r => snd (snd r)) rows) f2 = Some y /\
      r = {| label := l; nm := x; percentage := y |}.
Proof.
  intros Hread.
  assert (dropna (convert_rows rows) = surviving_rows rows) as Hsame
    by apply dropna_convert.
  split; [|split; [|split]].
  - unfold load_spectra. rewrite Hread, Hsame. reflexivity.
  - rewrite <- filter_split_length.
    rewrite <- (length_map fst), <- (length_map label).
    rewrite <- Hsame. f_equal. apply dropna_convert_labels.
  - rewrite <- Hsame. apply dropna_convert_labels.
  - intros r Hr. unfold surviving_rows in Hr.
    apply list_elem_of_omap in Hr as ([l [f1 f2]] & Hin & Hsurv).
    unfold surviving_row in Hsurv. simpl in Hsurv.
    destruct (to_numeric _ f1) as [x|] eqn:E1; [|discriminate Hsurv].
    destruct (to_numeric _ f2) as [y|] eqn:E2; [|discriminate Hsurv].
    injection Hsurv as <-. exists l, f1, f2, x, y. auto.
Qed.

End LoaderProperties.

Lemma load_spectra_drops_failed_rows_witness :
  @load_spectra demo_pandas "data/t-white-blank.txt"
    = Some (@surviving_rows demo_pandas (range_indexed headed_table)) /\
  length (@surviving_rows demo_pandas (range_indexed headed_table)) = 3.
Proof.
  destruct (@load_spectra_drops_failed_rows demo_pandas
              "data/t-white-blank.txt" (range_indexed headed_table) eq_refl)
    as (Hload & Hlen & _).
  split; [exact Hload|]. rewrite Hlen. reflexivity.
Defined.

(** ** The cursor map *)

Lemma fill_cursor_map_lookup (sel : list string) :
  forall (i : nat) (sv : list value) (cm cm' : gmap string (value * value)),
    fill_cursor_map i sel sv cm = Ok cm' ->
    (forall k, k ∉ sel -> cm' !! k = cm !! k) /\
    (forall j k, sel !! j = Some k ->
       (forall j', j < j' -> sel !! j' <> Some k) ->
       exists c1 c2,
         sv !! (2 * (i + j)) = Some c1 /\
         sv !! (2 * (i + j) + 1) = Some c2 /\
         cm' !! k = Some (c1, c2)).
Proof.
  induction sel as [|k0 rest IH]; intros i sv cm cm' H; simpl in H.
  - injection H as <-. split; [reflexivity|]. intros j k Hj. discriminate Hj.
  - unfold py_index in H.
    destruct (sv !! (i * 2)) as [c1|] eqn:E1; simpl in H; [|discriminate H].
    destruct (sv !! (i * 2 + 1)) as [c2|] eqn:E2; simpl in H; [|discriminate H].
    destruct (IH _ _ _ _ H) as [Hout Hin]. split.
    + intros k Hk. apply not_elem_of_cons in Hk as [Hne Hk].
      rewrite (Hout k Hk). apply lookup_insert_ne. congruence.
    + intros [|j] k Hj Hlast; simpl in Hj.
      * injection Hj as ->. exists c1, c2.
        replace (2 * (i + 0)) with (i * 2) by lia.
        split; [exact E1|]. split; [exact E2|].
        rewrite Hout; [apply lookup_insert_eq|].
        intros Hk. apply list_elem_of_lookup in Hk as [j' Hj'].
        apply (Hlast (S j')); [lia | exact Hj'].
      * destruct (Hin j k Hj) as (d1 & d2 & H1 & H2 & H3).
        { intros j' Hlt. apply (Hlast (S j')). lia. }
        exists d1, d2. replace (i + S j) with (S i + j) by lia. auto.
Qed.

Lemma fill_cursor_map_ok (sel : list string) :
  forall (i : nat) (sv : list value) (cm : gmap string (value * value)),
    2 * (i + length sel) <= length sv ->
    exists cm', fill_cursor_map i sel sv cm = Ok cm'.
Proof.
  induction sel as [|k0 rest IH]; intros i sv cm Hlen; simpl in *.
  - eauto.
  - unfold py_index.
    destruct (lookup_lt_is_Some_2 sv (i * 2)) as [c1 ->]; [lia|].
    destruct (lookup_lt_is_Some_2 sv (i * 2 + 1)) as [c2 ->]; [lia|].
    simpl. apply IH. lia.
Qed.

(** C8. For a selection without repeated identifiers and a flat list of
    twice as many cursor values, the cursor map is built, and it gives the
    case at position [i] the values at flat positions [2i] (slot 1) and
    [2i + 1] (slot 2). *)
Theorem cursor_map_positions (sel : list string) (sv : list value) :
  NoDup sel ->
  length sv = 2 * length sel ->
  exists cm,
    fill_cursor_map 0 sel sv ∅ = Ok cm /\
    forall i k, sel !! i = Some k ->
      exists c1 c2,
        sv !! (2 * i) = Some c1 /\
        sv !! (2 * i + 1) = Some c2 /\
        cursors_of cm k = Ok (c1, c2).
Proof.
  intros Hnd Hlen.
  destruct (fill_cursor_map_ok sel 0 sv ∅) as [cm Hcm]; [simpl; lia|].
  exists cm. split; [exact Hcm|]. intros i k Hi.
  destruct (fill_cursor_map_lookup _ _ _ _ _ Hcm) as [_ Hin].
  destruct (Hin i k Hi) as (c1 & c2 & H1 & H2 & H3).
  - intros j Hlt Hj.
    pose proof (NoDup_lookup _ _ _ _ Hnd Hi Hj). lia.
  - exists c1, c2. simpl in H1, H2. unfold cursors_of. rewrite H3. auto.
Qed.

Lemma cursor_map_positions_witness :
  exists cm,
    fill_cursor_map 0 ["Case 2"; "Blank"]
      [VNum (of_Z 460); VNum (of_Z 470); VNum (of_Z 480); VNum (of_Z 490)] ∅
      = Ok cm /\
    cursors_of cm "Blank" = Ok (VNum (of_Z 480), VNum (of_Z 490)).
Proof.
  destruct (cursor_map_positions ["Case 2"; "Blank"]
              [VNum (of_Z 460); VNum (of_Z 470); VNum (of_Z 480);
               VNum (of_Z 490)])
    as (cm & Hcm & Hpos).
  - apply NoDup_cons. split; [|apply NoDup_singleton].
    intros Hin. apply list_elem_of_singleton in Hin. discriminate Hin.
  - reflexivity.
  - exists cm. split; [exact Hcm|].
    destruct (Hpos 1 "Blank" eq_refl) as (c1 & c2 & H1 & H2 & H3).
    simpl in H1, H2. injection H1 as <-. injection H2 as <-. exact H3.
Defined.

(** ** The plot loop *)

Lemma for_each_skips {S A : Type} (body : S -> A -> result S)
    (keep : A -> bool) (l : list A) :
  (forall st a, keep a = false -> body st a = Ok st) ->
  forall st, for_each body st l = for_each body st (List.filter keep l).
Proof.
  intros Hskip. induction l as [|a l IH]; intros st; [reflexivity|].
  simpl. destruct (keep a) eqn:Hk; simpl.
  - destruct (body st a); simpl; [apply IH | reflexivity].
  - rewrite (Hskip st a Hk). simpl. apply IH.
Qed.

Section PlotProperties.

Context {pd : Pandas}.


Lemma plot_case_unregistered (cm : gmap string (value * value))
    (st : figure * list string) (k : string) :
  registered k = false -> plot_case cm st k = Ok st.
Proof.
  unfold registered, plot_case.
  destruct (cases !! k); [discriminate | reflexivity].
Qed.

Lemma plot_case_unavailable (cm : gmap string (value * value))
    (st : figure * list string) (k : string) :
  spectrum_unavailable k = true -> plot_case cm st k = Ok st.
Proof.
  unfold spectrum_unavailable, plot_case.
  destruct (cases !! k) as [c|]; [|reflexivity].
  destruct (load_spectra (file c)) as [data|]; [|reflexivity].
  intros ->. reflexivity.
Qed.

Lemma plot_case_no_curve (cm : gmap string (value * value))
    (st : figure * list string) (k : string) :
  yields_curve k = false -> plot_case cm st k = Ok st.
Proof.
  unfold yields_curve. intros H.
  apply andb_false_iff in H as [H|H].
  - apply plot_case_unregistered, H.
  - apply plot_case_unavailable. apply negb_false_iff, H.
Qed.

(** A case that gets past both [continue] statements adds one curve and
    one delta output, unless it raises. *)
Lemma plot_case_curve (cm : gmap string (value * value))
    (st st' : figure * list string) (k : string) :
  yields_curve k = true ->
  plot_case cm st k = Ok st' ->
  length (traces (fst st')) = S (length (traces (fst st))) /\
  length (snd st') = S (length (snd st)).
Proof.
  unfold yields_curve, registered, spectrum_unavailable,
    plot_case.
  destruct (cases !! k) as [c|]; [|discriminate].
  destruct (load_spectra (file c)) as [data|]; [|discriminate].
  destruct (frame_empty data); [discriminate|].
  intros _ H. bind_inv H. injection H as <-. simpl.
  rewrite !length_app. simpl. lia.
Qed.

Lemma for_each_plot_case_counts (cm : gmap string (value * value))
    (sel : list string) :
  forall st st',
    for_each (plot_case cm) st sel = Ok st' ->
    length (traces (fst st'))
      = length (traces (fst st)) + length (List.filter yields_curve sel) /\
    length (snd st')
      = length (snd st) + length (List.filter yields_curve sel).
Proof.
  induction sel as [|k sel IH]; intros st st' H; simpl in H.
  - injection H as <-. simpl. lia.
  - bind_inv H. destruct (IH _ _ H) as [Ht Hd]. simpl.
    destruct (yields_curve k) eqn:Hk.
    + destruct (plot_case_curve _ _ _ _ Hk E) as [Ht1 Hd1]. simpl. lia.
    + rewrite (plot_case_no_curve _ _ _ Hk) in E. injection E as <-. lia.
Qed.

Lemma update_plot_counts (sv : list value) (sel : list string)
    (fig : figure) (diffs : list string) :
  update_plot sv sel = Ok (fig, diffs) ->
  length (traces fig) = length (List.filter yields_curve sel) /\
  length diffs = length (List.filter yields_curve sel).
Proof.
  unfold update_plot. intros H. bind_inv H.
  injection H as <- <-.
  destruct (for_each_plot_case_counts _ _ _ _ E0) as [Ht Hd].
  simpl in *. auto.
Qed.

Lemma update_plot_no_curve (sv : list value) (sel : list string) :
  2 * length sel <= length sv ->
  (forall k, k ∈ sel -> yields_curve k = false) ->
  update_plot sv sel = Ok (update_layout new_figure, []).
Proof.
  intros Hlen Hall. unfold update_plot.
  destruct (fill_cursor_map_ok sel 0 sv ∅) as [cm ->]; [simpl; lia|].
  simpl. rewrite (for_each_skips _ yields_curve).
  - replace (List.filter yields_curve sel) with (@nil string);
      [reflexivity|].
    symmetry. clear Hlen. induction sel as [|k sel IH]; [reflexivity|].
    simpl. rewrite (Hall k); [|left]. apply IH.
    intros k' Hk'. apply Hall. right. exact Hk'.
  - intros st k. apply plot_case_no_curve.
Qed.

(** C5. A selected case whose spectrum is unavailable leaves the figure
    and the delta outputs as they were and raises nothing, so the loop
    over the selection is the loop over the cases that are not
    unavailable. A composition that returns holds one delta output per
    curve, one for every selected case that yields a curve. When no
    selected case yields a curve the composition returns a chart without
    curves and an empty list of delta outputs; so it does for the
    selection ["Blank"] when the file of "Blank" cannot be read. *)
Theorem unavailable_spectrum_is_skipped :
  (forall cm st k,
     spectrum_unavailable k = true -> plot_case cm st k = Ok st) /\
  (forall cm st sel,
     for_each (plot_case cm) st sel
     = for_each (plot_case cm) st
         (List.filter (fun k => negb (spectrum_unavailable k)) sel)) /\
  (forall sv sel fig diffs,
     update_plot sv sel = Ok (fig, diffs) ->
     length diffs = length (traces fig) /\
     length diffs = length (List.filter yields_curve sel)) /\
  (forall sv sel,
     2 * length sel <= length sv ->
     (forall k, k ∈ sel -> spectrum_unavailable k = true) ->
     update_plot sv sel = Ok (update_layout new_figure, [])) /\
  (forall c1 c2,
     read_csv "data/t-white-blank.txt" = None ->
     update_plot [c1; c2] ["Blank"] = Ok (update_layout new_figure, []) /\
     traces (update_layout new_figure) = []).
Proof.
  split; [|split; [|split; [|split]]].
  - apply plot_case_unavailable.
  - intros cm st sel. apply for_each_skips. intros st' k Hk.
    apply plot_case_unavailable. apply negb_false_iff, Hk.
  - intros sv sel fig diffs H.
    destruct (update_plot_counts _ _ _ _ H) as [Ht Hd]. lia.
  - intros sv sel Hlen Hall. apply update_plot_no_curve; [exact Hlen|].
    intros k Hk. unfold yields_curve.
    rewrite (Hall k Hk). apply andb_false_r.
  - intros c1 c2 Hread. split; [|reflexivity].
    apply update_plot_no_curve; [simpl; lia|].
    intros k Hk. apply list_elem_of_singleton in Hk as ->.
    unfold yields_curve, spectrum_unavailable,
      load_spectra.
    replace (cases !! "Blank")
      with (Some {| file := "data/t-white-blank.txt"; color := "black";
                    description := "Blank" |})
      by (vm_compute; reflexivity).
    simpl. rewrite Hread. apply andb_false_r.
Qed.

(** C10. A selected identifier that the registry does not hold leaves the
    figure and the delta outputs as they were and raises nothing; the
    loop over the selection is the loop over its registered identifiers,
    in their order and with the cursor map of the whole selection. *)
Theorem unregistered_case_is_skipped :
  (forall cm st k, cases !! k = None -> plot_case cm st k = Ok st) /\
  (forall cm st sel,
     for_each (plot_case cm) st sel
     = for_each (plot_case cm) st (List.filter registered sel)) /\
  (forall sv sel,
     update_plot sv sel
     = (cm <- fill_cursor_map 0 sel sv ∅ ;;
        st <- for_each (plot_case cm) (new_figure, [])
                (List.filter registered sel) ;;
        Ok (update_layout (fst st), snd st))).
Proof.
  assert (forall cm st k, registered k = false -> plot_case cm st k = Ok st)
    as Hskip by apply plot_case_unregistered.
  split; [|split].
  - intros cm st k Hk. apply Hskip. unfold registered. rewrite Hk.
    reflexivity.
  - intros cm st sel. apply for_each_skips. apply Hskip.
  - intros sv sel. unfold update_plot.
    destruct (fill_cursor_map 0 sel sv ∅) as [cm|]; [|reflexivity].
    simpl. rewrite (for_each_skips _ registered); [reflexivity|].
    apply Hskip.
Qed.

End PlotProperties.

Lemma unavailable_spectrum_is_skipped_witness :
  @update_plot demo_pandas
      [VNum (decimal 4627 1); VNum (of_Z 560);
       VNum (decimal 4627 1); VNum (of_Z 560)] ["Case 2"; "Case 3"]
    = Ok (update_layout new_figure, []) /\
  @update_plot no_files [VNum (decimal 4627 1); VNum (of_Z 560)] ["Blank"]
    = Ok (update_layout new_figure, []).
Proof.
  split.
  - apply (@unavailable_spectrum_is_skipped demo_pandas).
    + simpl. lia.
    + intros k Hk.
      apply elem_of_cons in Hk as [->|Hk];
        [|apply list_elem_of_singleton in Hk as ->];
        vm_compute; reflexivity.
  - apply (@unavailable_spectrum_is_skipped no_files). reflexivity.
Defined.

Lemma unregistered_case_is_skipped_witness :
  @plot_case demo_pandas ∅ (new_figure, []) "Case 9" = Ok (new_figure, []).
Proof.
  apply (@unregistered_case_is_skipped demo_pandas).
  vm_compute. reflexivity.
Defined.

(** ** Order of floats *)

Lemma fle_trans (a b c : float) :
  fle a b = true -> fle b c = true -> fle a c = true.
Proof.
  unfold fle, SFleb, SFcompare.
  destruct a as [sa|sa| |sa ma ea], b as [sb|sb| |sb mb eb],
    c as [sc|sc| |sc mc ec];
    try (destruct sa); try (destruct sb); try (destruct sc); simpl;
    intros H1 H2; try discriminate; try reflexivity; order_cases.
Qed.

Lemma flt_false_fle (a b : float) :
  is_nan a = false -> is_nan b = false -> flt a b = false -> fle b a = true.
Proof.
  unfold fle, flt, SFleb, SFltb, SFcompare.
  destruct a as [sa|sa| |sa ma ea], b as [sb|sb| |sb mb eb];
    try (destruct sa); try (destruct sb); simpl;
    intros Ha Hb H1; try discriminate; try reflexivity; order_cases.
Qed.

Lemma flt_fle_trans (a b c : float) :
  flt a b = true -> fle b c = true -> flt a c = true.
Proof.
  unfold fle, flt, SFleb, SFltb, SFcompare.
  destruct a as [sa|sa| |sa ma ea], b as [sb|sb| |sb mb eb],
    c as [sc|sc| |sc mc ec];
    try (destruct sa); try (destruct sb); try (destruct sc); simpl;
    intros H1 H2; try discriminate; try reflexivity; order_cases.
Qed.

Lemma flt_fle (a b : float) : flt a b = true -> fle a b = true.
Proof.
  unfold fle, flt, SFleb, SFltb.
  destruct (SFcompare a b) as [[]|]; simpl; congruence.
Qed.

Lemma fle_refl (a : float) : is_nan a = false -> fle a a = true.
Proof.
  unfold fle, SFleb, SFcompare.
  destruct a as [sa|sa| |sa ma ea]; try destruct sa; simpl; intros H;
    try discriminate; try reflexivity; order_cases.
Qed.

(** ** The scan for the least value *)

Lemma argmin_from_first_least (rest : list float) :
  forall (pre : list float) (best_pos : nat) (best : float),
    no_nan (pre ++ rest) ->
    first_least pre best_pos best ->
    exists m,
      first_least (pre ++ rest)
        (argmin_from best_pos best (length pre) rest) m.
Proof.
  induction rest as [|v rest IH]; intros pre best_pos best Hnan Hbest.
  - exists best. rewrite app_nil_r. exact Hbest.
  - destruct Hbest as (Hat & Hle & Hlt).
    assert (is_nan v = false) as Hv.
    { apply Hnan. apply elem_of_app. right. left. }
    assert (is_nan best = false) as Hb.
    { apply Hnan. apply elem_of_app. left.
      apply list_elem_of_lookup. eauto. }
    assert (best_pos < length pre) as Hpos by (eapply lookup_lt_Some; eauto).
    simpl. replace (pre ++ v :: rest)%list with ((pre ++ [v]) ++ rest)%list in *
      by (rewrite <- app_assoc; reflexivity).
    replace (S (length pre)) with (length (pre ++ [v])%list)
      by (rewrite length_app; simpl; lia).
    destruct (flt v best) eqn:Hvb; apply IH; try exact Hnan.
    + split; [|split].
      * rewrite lookup_app_r, Nat.sub_diag; [reflexivity | lia].
      * intros u Hu. apply elem_of_app in Hu as [Hu|Hu].
        -- apply (fle_trans _ best); [apply flt_fle, Hvb | apply Hle, Hu].
        -- apply list_elem_of_singleton in Hu as ->. apply fle_refl, Hv.
      * intros q u Hq Hu. rewrite lookup_app_l in Hu by exact Hq.
        apply (flt_fle_trans _ best); [exact Hvb|].
        apply Hle. apply list_elem_of_lookup. eauto.
    + split; [|split].
      * rewrite lookup_app_l by exact Hpos. exact Hat.
      * intros u Hu. apply elem_of_app in Hu as [Hu|Hu].
        -- apply Hle, Hu.
        -- apply list_elem_of_singleton in Hu as ->.
           apply flt_false_fle; assumption.
      * intros q u Hq Hu. rewrite lookup_app_l in Hu by lia.
        apply (Hlt q u Hq Hu).
Qed.

Lemma nanargmin_first_least (values : list float) :
  values <> [] ->
  no_nan values ->
  exists p m, nanargmin values = Ok p /\ first_least values p m.
Proof.
  intros Hne Hnan. destruct values as [|v rest]; [congruence|].
  assert (is_nan v = false) as Hv by (apply Hnan; left).
  unfold nanargmin. simpl forallb. rewrite Hv. simpl.
  assert (map fill_inf rest = rest) as ->.
  { clear Hne Hv. induction rest as [|u rest IH]; [reflexivity|].
    simpl. unfold fill_inf at 1.
    rewrite (Hnan u) by (right; left). f_equal. apply IH.
    intros x Hx. apply Hnan. apply elem_of_cons in Hx as [->|Hx].
    - left.
    - right. right. exact Hx. }
  unfold fill_inf. rewrite Hv.
  destruct (argmin_from_first_least rest [v] 0 v) as [m Hm].
  - exact Hnan.
  - split; [reflexivity|]. split.
    + intros u Hu. apply list_elem_of_singleton in Hu as ->.
      apply fle_refl, Hv.
    + intros q u Hq. lia.
  - eauto.
Qed.

(** ** The nearest-sample resolution *)

Lemma distances_of_frame (data : frame) (w : float) :
  series_values (series_abs (map (fun p => (fst p, fsub (snd p) w))
                               (column_nm data)))
    = map (distance w) data /\
  series_index (series_abs (map (fun p => (fst p, fsub (snd p) w))
                              (column_nm data)))
    = map label data.
Proof.
  unfold series_values, series_index, series_abs, column_nm.
  rewrite !map_map. split; reflexivity.
Qed.

Lemma iloc_position (data : frame) (p : nat) :
  iloc data (position_label p) = py_index data p.
Proof.
  unfold iloc, position_label.
  destruct (Z.leb_spec 0 (Z.of_nat p)) as [_|Hneg]; [|lia].
  rewrite Nat2Z.id. reflexivity.
Qed.

(** On a frame whose labels are its positions, the resolution returns, in
    binary64 arithmetic, the intensity of the first of the samples nearest
    to the cursor. *)
Lemma resolve_range_index (data : frame) (w : float) :
  data <> [] ->
  range_index data ->
  no_nan (map (distance w) data) ->
  exists p r,
    first_nearest data w p r /\
    nearest_label data (VNum w) = Ok (position_label p) /\
    resolve data (VNum w) = Ok (percentage r).
Proof.
  intros Hne Hidx Hnan.
  destruct (nanargmin_first_least (map (distance w) data))
    as (p & m & Hp & Hat & Hle & Hlt); [|exact Hnan|].
  { destruct data; [congruence | discriminate]. }
  apply list_lookup_fmap_Some in Hat as (r & -> & Hr).
  assert (nearest_label data (VNum w) = Ok (position_label p)) as Hlabel.
  { unfold nearest_label, series_sub, idxmin. simpl.
    destruct (distances_of_frame data w) as [-> ->].
    rewrite Hp. simpl. unfold py_index. rewrite Hidx.
    assert (map position_label (seq 0 (length data)) !! p
            = Some (position_label p)) as ->; [|reflexivity].
    apply list_lookup_fmap_Some. exists p. split; [reflexivity|].
    apply lookup_seq_lt. eapply lookup_lt_Some; eauto. }
  exists p, r. split; [|split; [exact Hlabel|]].
  - split; [exact Hr|]. split.
    + intros r' Hr'. apply Hle. apply list_elem_of_fmap. eauto.
    + intros q r' Hq Hr'. apply (Hlt q); [exact Hq|].
      apply list_lookup_fmap_Some. eauto.
  - unfold resolve. rewrite Hlabel. simpl.
    unfold intensity_at. rewrite iloc_position.
    unfold py_index. rewrite Hr. reflexivity.
Qed.

(** ** Clean files *)

Lemma small_not_nan (x : float) : small x = true -> is_nan x = false.
Proof. destruct x; [reflexivity | reflexivity | discriminate | reflexivity]. Qed.

Lemma small_finite (x : float) : small x = true -> is_finite x = true.
Proof.
  destruct x as [s|s| |s m e]; try reflexivity; try discriminate.
Qed.

Lemma label_eqb_eq (a b : index_label) : label_eqb a b = true -> a = b.
Proof.
  destruct a as [x|u], b as [y|v]; simpl; try discriminate.
  - intros H. apply Z.eqb_eq in H. congruence.
  - intros H. apply String.eqb_eq in H. congruence.
Qed.

Lemma range_labels_from_seq (labels : list index_label) :
  forall n,
    range_labels_from n labels = true ->
    labels = map position_label (seq n (length labels)).
Proof.
  induction labels as [|l labels IH]; intros n H; [reflexivity|].
  simpl in H. apply andb_true_iff in H as [Hl Hrest].
  simpl. f_equal; [apply label_eqb_eq, Hl | apply IH, Hrest].
Qed.

Lemma dropna_nothing (data : frame) :
  (forall r, r ∈ data -> has_na r = false) -> dropna data = data.
Proof.
  induction data as [|r data IH]; intros Hall; [reflexivity|].
  simpl. rewrite (Hall r) by left. simpl. f_equal.
  apply IH. intros r' Hr'. apply Hall. right. exact Hr'.
Qed.

Section CleanFiles.

Context {pd : Pandas}.

Lemma convert_rows_labels (rows : list (index_label * (string * string))) :
  map label (convert_rows rows) = map fst rows.
Proof. unfold convert_rows. rewrite map_map. reflexivity. Qed.

(** A clean file loads as it stands: no row is dropped, the labels are the
    positions and every cell is a small number. *)
Lemma clean_rows_frame (rows : list (index_label * (string * string))) :
  clean_rows rows = true ->
  convert_rows rows <> [] /\
  range_index (convert_rows rows) /\
  dropna (convert_rows rows) = convert_rows rows /\
  forall r, r ∈ convert_rows rows ->
    small (nm r) = true /\ small (percentage r) = true.
Proof.
  unfold clean_rows. intros H.
  apply andb_true_iff in H as [H Hsmall].
  apply andb_true_iff in H as [H _].
  apply andb_true_iff in H as [Hne Hrange].
  assert (forall r, r ∈ convert_rows rows ->
            small (nm r) = true /\ small (percentage r) = true) as Hcells.
  { intros r Hr. rewrite forallb_forall in Hsmall.
    apply andb_true_iff. apply (Hsmall r). apply list_elem_of_In, Hr. }
  split; [|split; [|split; [|exact Hcells]]].
  - destruct (convert_rows rows); [discriminate Hne | discriminate].
  - unfold range_index, range_labelled in *.
    rewrite convert_rows_labels.
    replace (length (convert_rows rows)) with (length (map fst rows))
      by (unfold convert_rows; rewrite !length_map; reflexivity).
    apply range_labels_from_seq, Hrange.
  - apply dropna_nothing. intros r Hr. destruct (Hcells r Hr) as [H1 H2].
    unfold has_na. rewrite (small_not_nan _ H1), (small_not_nan _ H2).
    reflexivity.
Qed.

Lemma load_spectra_clean (file_path : string)
    (rows : list (index_label * (string * string))) :
  read_csv file_path = Some rows ->
  clean_rows rows = true ->
  load_spectra file_path = Some (convert_rows rows).
Proof.
  intros Hread Hclean. unfold load_spectra. rewrite Hread.
  destruct (clean_rows_frame rows Hclean) as (_ & _ & -> & _). reflexivity.
Qed.

End CleanFiles.

(** C1. Once a row has been dropped the labels are no longer the
    positions, and the resolution misses the nearest sample. The file of
    "Blank" loads as the samples (500, 1), (550, 5), (600, 2) under the
    labels 1, 2, 3. At the cursor 500 the first nearest sample is
    (500, 1), at distance zero, yet the resolution returns the intensity
    5 of the sample at 550, which no nearest sample has; at the cursor 600
    it raises [IndexError]. With the cursors at 500 and 550 the delta
    output reports 3.00 for the intensities, where the nearest samples
    differ by 4. *)
Theorem resolve_misses_nearest_after_dropped_row :
  exists data,
    @load_spectra demo_pandas "data/t-white-blank.txt" = Some data /\
    data <> [] /\
    map label data = [IntLabel 1; IntLabel 2; IntLabel 3] /\
    first_nearest data (of_Z 500) 0
      {| label := IntLabel 1; nm := of_Z 500; percentage := of_Z 1 |} /\
    resolve data (VNum (of_Z 500)) = Ok (of_Z 5) /\
    ~ (exists p r,
         first_nearest data (of_Z 500) p r /\
         resolve data (VNum (of_Z 500)) = Ok (percentage r)) /\
    resolve data (VNum (of_Z 600)) = Raise IndexError /\
    exists fig,
      @update_plot demo_pandas [VNum (of_Z 500); VNum (of_Z 550)] ["Blank"]
        = Ok (fig, ["Δλ = 50.00 nm, ΔI = 3.00%"]).
Proof.
  eexists. split; [vm_compute; reflexivity|].
  split; [discriminate|]. split; [reflexivity|].
  split; [|split; [vm_compute; reflexivity|split]].
  3: { split; [vm_compute; reflexivity|]. eexists. vm_compute. reflexivity. }
  - split; [vm_compute; reflexivity|]. split.
    + intros r' Hr'. repeat (apply elem_of_cons in Hr' as [->|Hr']);
        [vm_compute; reflexivity .. | apply elem_of_nil in Hr'; contradiction].
    + intros q r' Hq. lia.
  - intros (p & r & (Hat & _ & Hlt) & Hres).
    destruct p as [|p].
    + injection Hat as <-. vm_compute in Hres. discriminate Hres.
    + specialize (Hlt 0 _ (Nat.lt_0_succ p) eq_refl).
      destruct p as [|[|p]]; simpl in Hat;
        [injection Hat as <- | injection Hat as <- | discriminate Hat];
        vm_compute in Hlt; discriminate Hlt.
Qed.

(** C6. With the cursors at 462.70 and 560.00 and the intensities 12.345
    and 8.0 the delta output is the string below; the composition produces
    it for "Case 1", whose nearest samples have these intensities. *)
Theorem delta_summary_example :
  delta_summary (VNum (decimal 46270 2)) (VNum (decimal 56000 2))
      (decimal 12345 3) (decimal 80 1)
    = Ok "Δλ = 97.30 nm, ΔI = 4.35%" /\
  resolve (numeric_frame (pd := demo_pandas) clean_table)
      (VNum (decimal 46270 2)) = Ok (decimal 12345 3) /\
  resolve (numeric_frame (pd := demo_pandas) clean_table)
      (VNum (decimal 56000 2)) = Ok (decimal 80 1) /\
  exists fig,
    @update_plot demo_pandas
        [VNum (decimal 46270 2); VNum (decimal 56000 2)] ["Case 1"]
      = Ok (fig, ["Δλ = 97.30 nm, ΔI = 4.35%"]).
Proof.
  split; [vm_compute; reflexivity|].
  split; [vm_compute; reflexivity|].
  split; [vm_compute; reflexivity|].
  eexists. vm_compute. reflexivity.
Qed.

(** * Further properties *)

(** ** The generated controls *)

Lemma create_controls_content (k : string) (c : component) :
  create_controls k = Ok c ->
  cursor_controls "cursor-slider" c = default_cursors k /\
  cursor_controls "cursor-input" c = default_cursors k /\
  diff_displays c = [k].
Proof.
  unfold create_controls. destruct (cases !! k) as [case|]; [|discriminate].
  intros H. injection H as <-. repeat split; reflexivity.
Qed.

Lemma create_controls_registered (k : string) :
  registered k = true -> exists c, create_controls k = Ok c.
Proof.
  unfold registered, create_controls.
  destruct (cases !! k); [eauto | discriminate].
Qed.

Lemma create_controls_unregistered (k : string) :
  registered k = false -> create_controls k = Raise KeyError.
Proof.
  unfold registered, create_controls.
  destruct (cases !! k); [discriminate | reflexivity].
Qed.

Lemma comprehension_length {A B : Type} (f : A -> result B) (l : list A) :
  forall bs, comprehension f l = Ok bs -> length bs = length l.
Proof.
  induction l as [|a l IH]; intros bs H; simpl in H.
  - injection H as <-. reflexivity.
  - bind_inv H. injection H as <-. simpl. f_equal. apply IH. reflexivity.
Qed.

Lemma update_controls_content (sel : list string) :
  forall cs,
    update_controls sel = Ok cs ->
    flat_map (cursor_controls "cursor-slider") cs = flat_map default_cursors sel /\
    flat_map (cursor_controls "cursor-input") cs = flat_map default_cursors sel /\
    flat_map diff_displays cs = sel.
Proof.
  unfold update_controls.
  induction sel as [|k sel IH]; intros cs H; simpl in H.
  - injection H as <-. repeat split; reflexivity.
  - bind_inv H. injection H as <-.
    destruct (create_controls_content _ _ E) as (Hs & Hi & Hd).
    destruct (IH _ eq_refl) as (IHs & IHi & IHd).
    simpl flat_map. rewrite Hs, Hi, Hd, IHs, IHi, IHd.
    repeat split; reflexivity.
Qed.

Lemma default_cursors_lookup (sel : list string) :
  forall i k,
    sel !! i = Some k ->
    flat_map default_cursors sel !! (2 * i)
      = Some (k, 1, VNum (decimal 4627 1)) /\
    flat_map default_cursors sel !! (2 * i + 1)
      = Some (k, 2, VNum (of_Z 560)).
Proof.
  induction sel as [|k0 sel IH]; intros i k Hi; [discriminate Hi|].
  destruct i as [|i]; simpl in Hi.
  - injection Hi as ->. split; reflexivity.
  - destruct (IH i k Hi) as [H1 H2].
    replace (2 * S i) with (S (S (2 * i))) by lia.
    split; [exact H1 | exact H2].
Qed.

(** X1. The controls callback returns one control block per selected case,
    in the order of the selection, when every selected identifier is a key
    of the registry; it raises [KeyError] as soon as one is not. *)
Theorem update_controls_result (sel : list string) :
  if forallb registered sel
  then exists cs,
         update_controls sel = Ok cs /\
         length cs = length sel /\
         flat_map diff_displays cs = sel
  else update_controls sel = Raise KeyError.
Proof.
  unfold update_controls. induction sel as [|k sel IH]; simpl.
  - exists []. repeat split; reflexivity.
  - destruct (registered k) eqn:Hk; simpl.
    + destruct (create_controls_registered k Hk) as [c Hc]. rewrite Hc. simpl.
      destruct (forallb registered sel).
      * destruct IH as (cs & -> & Hlen & Hd). simpl.
        exists (c :: cs). split; [reflexivity|].
        split; [simpl; f_equal; exact Hlen|].
        simpl. destruct (create_controls_content _ _ Hc) as (_ & _ & ->).
        rewrite Hd. reflexivity.
      * rewrite IH. reflexivity.
    + rewrite (create_controls_unregistered k Hk). reflexivity.
Qed.

(** X2. In the controls generated for a selection, the sliders in document
    order are slot 1 and slot 2 of the first case, then of the second, and
    so on: the slider at flat position [2i] belongs to slot 1 of the case
    at position [i] and the one at [2i + 1] to its slot 2, as the plot
    composer assumes. The numeric entries are laid out alike. *)
Theorem generated_sliders_positions (sel : list string)
    (cs : list component) (i : nat) (k : string) :
  update_controls sel = Ok cs ->
  sel !! i = Some k ->
  flat_map (cursor_controls "cursor-slider") cs !! (2 * i)
    = Some (k, 1, VNum (decimal 4627 1)) /\
  flat_map (cursor_controls "cursor-slider") cs !! (2 * i + 1)
    = Some (k, 2, VNum (of_Z 560)) /\
  flat_map (cursor_controls "cursor-input") cs
    = flat_map (cursor_controls "cursor-slider") cs.
Proof.
  intros Hcs Hi.
  destruct (update_controls_content _ _ Hcs) as (-> & -> & _).
  destruct (default_cursors_lookup _ _ _ Hi) as [H1 H2].
  repeat split; assumption.
Qed.

Lemma generated_sliders_positions_witness :
  exists cs,
    update_controls ["Case 3"; "Blank"] = Ok cs /\
    flat_map (cursor_controls "cursor-slider") cs !! 3
      = Some ("Blank", 2, VNum (of_Z 560)).
Proof.
  eexists. split; [reflexivity|].
  apply (generated_sliders_positions ["Case 3"; "Blank"] _ 1 "Blank");
    reflexivity.
Defined.

Lemma update_controls_all_registered (sel : list string) :
  forall cs,
    update_controls sel = Ok cs ->
    forall k, k ∈ sel -> registered k = true.
Proof.
  unfold update_controls.
  induction sel as [|k0 sel IH]; intros cs H k Hk.
  - apply elem_of_nil in Hk. contradiction.
  - simpl in H. bind_inv H. apply elem_of_cons in Hk as [->|Hk].
    + destruct (registered k0) eqn:Hr; [reflexivity|].
      rewrite (create_controls_unregistered _ Hr) in E. discriminate E.
    + apply (IH _ eq_refl k Hk).
Qed.

Lemma update_controls_ok (sel : list string) :
  (forall k, k ∈ sel -> registered k = true) ->
  exists cs, update_controls sel = Ok cs.
Proof.
  unfold update_controls. induction sel as [|k sel IH]; intros Hall; simpl.
  - eauto.
  - destruct (create_controls_registered k) as [c ->]; [apply Hall; left|].
    destruct IH as [cs ->]; [intros k' Hk'; apply Hall; right; exact Hk'|].
    simpl. eauto.
Qed.

Lemma last_occurrence (sel : list string) (k : string) :
  k ∈ sel ->
  exists j, sel !! j = Some k /\ forall j', j < j' -> sel !! j' <> Some k.
Proof.
  induction sel as [|k0 sel IH]; intros Hk.
  - apply elem_of_nil in Hk. contradiction.
  - destruct (decide (k ∈ sel)) as [Hin|Hout].
    + destruct (IH Hin) as (j & Hj & Hlast). exists (S j).
      split; [exact Hj|]. intros [|j'] Hlt; [lia|]. simpl.
      apply Hlast. lia.
    + apply elem_of_cons in Hk as [->|Hk]; [|contradiction].
      exists 0. split; [reflexivity|]. intros [|j'] Hlt; [lia|]. simpl.
      intros Hj'. apply Hout. apply list_elem_of_lookup. eauto.
Qed.

Lemma default_cursors_length (sel : list string) :
  length (flat_map default_cursors sel) = 2 * length sel.
Proof.
  induction sel as [|k sel IH]; [reflexivity|]. simpl. rewrite IH. lia.
Qed.

(** X3. Controls that were just generated are already reconciled and fit
    the plot composer: the numeric entries hold the values of the sliders,
    there are two values per selected case, and the cursor map built from
    them gives every selected case the cursors 462.7 and 560, whether or
    not the selection repeats an identifier. *)
Theorem fresh_controls_cursor_map (sel : list string) (cs : list component) :
  update_controls sel = Ok cs ->
  cursor_values "cursor-input" cs = cursor_values "cursor-slider" cs /\
  length (cursor_values "cursor-slider" cs) = 2 * length sel /\
  exists cm,
    fill_cursor_map 0 sel (cursor_values "cursor-slider" cs) ∅ = Ok cm /\
    forall k, k ∈ sel ->
      cursors_of cm k = Ok (VNum (decimal 4627 1), VNum (of_Z 560)).
Proof.
  intros Hcs. unfold cursor_values.
  destruct (update_controls_content _ _ Hcs) as (-> & -> & _).
  split; [reflexivity|].
  assert (length (map snd (flat_map default_cursors sel)) = 2 * length sel)
    as Hlen by (rewrite length_map; apply default_cursors_length).
  split; [exact Hlen|].
  destruct (fill_cursor_map_ok sel 0 (map snd (flat_map default_cursors sel)) ∅)
    as [cm Hcm]; [simpl; lia|].
  exists cm. split; [exact Hcm|]. intros k Hk.
  destruct (last_occurrence _ _ Hk) as (j & Hj & Hlast).
  destruct (fill_cursor_map_lookup _ _ _ _ _ Hcm) as [_ Hin].
  destruct (Hin j k Hj Hlast) as (c1 & c2 & H1 & H2 & H3).
  destruct (default_cursors_lookup _ _ _ Hj) as [D1 D2].
  simpl in H1, H2.
  rewrite list_lookup_fmap in H1, H2.
  replace (j + (j + 0)) with (2 * j) in H1, H2 by lia.
  rewrite D1 in H1. rewrite D2 in H2. simpl in H1, H2.
  injection H1 as <-. injection H2 as <-.
  unfold cursors_of. rewrite H3. reflexivity.
Qed.

Lemma fresh_controls_cursor_map_witness :
  exists cs cm,
    update_controls ["Blank"; "Case 1"; "Blank"] = Ok cs /\
    fill_cursor_map 0 ["Blank"; "Case 1"; "Blank"]
      (cursor_values "cursor-slider" cs) ∅ = Ok cm /\
    cursors_of cm "Blank" = Ok (VNum (decimal 4627 1), VNum (of_Z 560)).
Proof.
  destruct (update_controls_ok ["Blank"; "Case 1"; "Blank"]) as [cs Hcs].
  - intros k Hk.
    repeat (apply elem_of_cons in Hk as [->|Hk]); try reflexivity.
    apply elem_of_nil in Hk. contradiction.
  - destruct (fresh_controls_cursor_map _ _ Hcs) as (_ & _ & cm & Hcm & Hall).
    exists cs, cm. split; [exact Hcs|]. split; [exact Hcm|].
    apply Hall. left.
Defined.

Lemma case_keys_registered (k : string) :
  k ∈ case_keys <-> registered k = true.
Proof.
  split.
  - unfold case_keys. intros Hk.
    repeat (apply elem_of_cons in Hk as [->|Hk]); try reflexivity.
    apply elem_of_nil in Hk. contradiction.
  - unfold registered. destruct (cases !! k) as [c|] eqn:Hc; [|discriminate].
    intros _. unfold cases in Hc. apply elem_of_list_to_map_2 in Hc.
    unfold case_keys.
    repeat (apply elem_of_cons in Hc as [Hc|Hc];
            [injection Hc as -> _; repeat first [left | right]|]).
    apply elem_of_nil in Hc. contradiction.
Qed.

(** X4. The checklist of the layout offers exactly the keys of the
    registry, so the controls callback returns, with one block per case,
    for every selection made of checklist options. *)
Theorem checklist_selection_creates_controls (sel : list string) :
  (forall k, k ∈ checklist_options app_layout <-> registered k = true) /\
  ((forall k, k ∈ sel -> k ∈ checklist_options app_layout) ->
   exists cs, update_controls sel = Ok cs /\ length cs = length sel).
Proof.
  assert (checklist_options app_layout = case_keys) as ->.
  { reflexivity. }
  split; [apply case_keys_registered|]. intros Hsel.
  destruct (update_controls_ok sel) as [cs Hcs].
  - intros k Hk. apply case_keys_registered, Hsel, Hk.
  - exists cs. split; [exact Hcs|].
    apply (comprehension_length _ _ _ Hcs).
Qed.

Lemma checklist_selection_creates_controls_witness :
  exists cs, update_controls ["Case 4"; "Blank"] = Ok cs /\ length cs = 2.
Proof.
  apply (checklist_selection_creates_controls ["Case 4"; "Blank"]).
  intros k Hk.
  repeat (apply elem_of_cons in Hk as [->|Hk]);
    [repeat first [left | right] ..|].
  apply elem_of_nil in Hk. contradiction.
Defined.

(** ** More on sync_inputs *)

Lemma sync_inputs_same (triggered : list string) (sv iv : list value)
    (cd : option click) (s i : list value) :
  sync_inputs triggered sv iv cd = Ok (s, i) ->
  s = i /\
  (s = sv \/ s = iv \/ exists w, s = replicate (length sv) w).
Proof.
  intros H. destruct triggered as [|t rest]; [discriminate H|].
  destruct (contains click_prop t) eqn:Hc.
  - rewrite (sync_inputs_click _ _ _ _ _ Hc) in H.
    destruct (clicked_x cd) as [w|]; simpl in H; [|discriminate H].
    injection H as <- <-. split; [reflexivity|]. right. right. eauto.
  - rewrite (sync_inputs_no_click _ _ _ _ _ Hc) in H.
    destruct (contains "cursor-input" t); injection H as <- <-; auto.
Qed.

(** X5. A reconciliation is stable: when its two outputs are fed back as
    the slider values and the entry values, a further pass triggered by a
    slider or by a numeric entry returns them unchanged. *)
Theorem sync_inputs_stable (triggered : list string) (sv iv : list value)
    (cd : option click) (s i : list value)
    (t' : string) (rest' : list string) (cd' : option click) :
  sync_inputs triggered sv iv cd = Ok (s, i) ->
  contains click_prop t' = false ->
  sync_inputs (t' :: rest') s i cd' = Ok (s, i).
Proof.
  intros H Hc'. destruct (sync_inputs_same _ _ _ _ _ _ H) as [<- _].
  rewrite (sync_inputs_no_click _ _ _ _ _ Hc').
  destruct (contains "cursor-input" t'); reflexivity.
Qed.

Lemma sync_inputs_stable_witness :
  sync_inputs [slider_prop "Blank" "2"]
      (replicate 2 (VNum (of_Z 500))) (replicate 2 (VNum (of_Z 500))) None
    = Ok (replicate 2 (VNum (of_Z 500)), replicate 2 (VNum (of_Z 500))).
Proof.
  apply (sync_inputs_stable [click_prop]
           [VNum (of_Z 460); VNum (of_Z 560)] [VNone; VNum (of_Z 560)]
           (Some {| points := [ {| point_x := VNum (of_Z 500) |} ] |}));
    reflexivity.
Defined.

(** X6. When the callback receives as many entry values as slider values,
    both sequences it returns have that many values, whatever triggered
    it. *)
Theorem sync_inputs_lengths (triggered : list string) (sv iv : list value)
    (cd : option click) (s i : list value) (k : nat) :
  length sv = k ->
  length iv = k ->
  sync_inputs triggered sv iv cd = Ok (s, i) ->
  length s = k /\ length i = k.
Proof.
  intros Hsv Hiv H.
  destruct (sync_inputs_same _ _ _ _ _ _ H) as [<- [->|[->|[w ->]]]];
    rewrite ?length_replicate; auto.
Qed.

Lemma sync_inputs_lengths_witness :
  length (replicate 2 (VNum (of_Z 500))) = 2 /\
  length (replicate 2 (VNum (of_Z 500))) = 2.
Proof.
  apply (sync_inputs_lengths [click_prop]
           [VNum (of_Z 460); VNum (of_Z 560)] [VNone; VNum (of_Z 560)]
           (Some {| points := [ {| point_x := VNum (of_Z 500) |} ] |}));
    reflexivity.
Defined.

(** X7. The reconciliation raises in two situations only: when nothing
    triggered it, and when the trigger is a click whose click data holds no
    point. A click without click data raises [TypeError], a click with an
    empty list of points raises [IndexError]. *)
Theorem sync_inputs_raises (triggered : list string) (sv iv : list value)
    (cd : option click) :
  ((exists e, sync_inputs triggered sv iv cd = Raise e) <->
   triggered = [] \/
   exists t rest,
     triggered = t :: rest /\
     contains click_prop t = true /\ click_has_point cd = false) /\
  (forall t rest,
     triggered = t :: rest -> contains click_prop t = true ->
     (cd = None -> sync_inputs triggered sv iv cd = Raise TypeError) /\
     (cd = Some {| points := [] |} ->
      sync_inputs triggered sv iv cd = Raise IndexError)).
Proof.
  split.
  - split.
    + intros [e H]. destruct triggered as [|t rest]; [left; reflexivity|].
      right. exists t, rest. split; [reflexivity|].
      destruct (contains click_prop t) eqn:Hc.
      * split; [reflexivity|].
        destruct (click_has_point cd) eqn:Hp; [|reflexivity].
        rewrite (sync_inputs_click _ _ _ _ _ Hc) in H.
        destruct (clicked_x_point cd Hp) as [w Hw]. rewrite Hw in H.
        discriminate H.
      * rewrite (sync_inputs_no_click _ _ _ _ _ Hc) in H.
        destruct (contains "cursor-input" t); discriminate H.
    + intros [->|(t & rest & -> & Hc & Hp)].
      * exists TypeError. reflexivity.
      * rewrite (sync_inputs_click _ _ _ _ _ Hc).
        destruct cd as [[[|p ps]]|]; simpl in *; try discriminate Hp; eauto.
  - intros t rest -> Hc. rewrite (sync_inputs_click _ _ _ _ _ Hc).
    split; intros ->; reflexivity.
Qed.

Lemma sync_inputs_raises_witness :
  sync_inputs [click_prop] [VNum (of_Z 500)] [VNum (of_Z 500)]
    (Some {| points := [] |}) = Raise IndexError.
Proof.
  exact (proj2 (proj2 (sync_inputs_raises [click_prop] [VNum (of_Z 500)]
                         [VNum (of_Z 500)] (Some {| points := [] |}))
                  click_prop [] eq_refl eq_refl) eq_refl).
Defined.

(** ** More on the cursor map *)

Lemma fill_cursor_map_short (sel : list string) :
  forall (i : nat) (sv : list value) (cm : gmap string (value * value)),
    sel <> [] ->
    length sv < 2 * (i + length sel) ->
    fill_cursor_map i sel sv cm = Raise IndexError.
Proof.
  induction sel as [|k sel IH]; intros i sv cm Hne Hlen; [congruence|].
  simpl in *. unfold py_index.
  destruct (sv !! (i * 2)) as [c1|] eqn:E1; [|reflexivity].
  destruct (sv !! (i * 2 + 1)) as [c2|] eqn:E2; [|reflexivity].
  simpl. apply lookup_lt_Some in E2.
  destruct sel as [|k' sel]; [simpl in Hlen; lia|].
  apply IH; [discriminate | simpl in *; lia].
Qed.

(** X8. When the slider list holds fewer than two values per selected
    case the first loop raises [IndexError], and so does the composition,
    before any file is read: so it is when the callback runs before the
    sliders of the selection exist. *)
Theorem update_plot_short_sliders {pd : Pandas} (sv : list value)
    (sel : list string) :
  length sv < 2 * length sel ->
  fill_cursor_map 0 sel sv ∅ = Raise IndexError /\
  update_plot sv sel = Raise IndexError.
Proof.
  intros Hlen.
  assert (fill_cursor_map 0 sel sv ∅ = Raise IndexError) as H.
  { apply fill_cursor_map_short; [|simpl; exact Hlen].
    intros ->. simpl in Hlen. lia. }
  split; [exact H|]. unfold update_plot. rewrite H. reflexivity.
Qed.

Lemma update_plot_short_sliders_witness :
  @update_plot demo_pandas [] ["Blank"] = Raise IndexError.
Proof.
  apply (@update_plot_short_sliders demo_pandas [] ["Blank"]). simpl. lia.
Defined.

Lemma fill_cursor_map_extra (sel : list string) :
  forall (i : nat) (sv extra : list value) (cm : gmap string (value * value)),
    2 * (i + length sel) <= length sv ->
    fill_cursor_map i sel (sv ++ extra) cm = fill_cursor_map i sel sv cm.
Proof.
  induction sel as [|k sel IH]; intros i sv extra cm Hlen; [reflexivity|].
  simpl in *. unfold py_index.
  rewrite !lookup_app_l by lia.
  destruct (sv !! (i * 2)) as [c1|]; [|reflexivity].
  destruct (sv !! (i * 2 + 1)) as [c2|]; [|reflexivity].
  simpl. apply IH. lia.
Qed.

(** X9. The composition reads the first two values per selected case and
    nothing else of the slider list: values beyond them change neither the
    figure nor the delta outputs nor the error. *)
Theorem update_plot_ignores_extra_sliders {pd : Pandas}
    (sv extra : list value) (sel : list string) :
  2 * length sel <= length sv ->
  update_plot (sv ++ extra) sel = update_plot sv sel.
Proof.
  intros Hlen. unfold update_plot.
  rewrite fill_cursor_map_extra by (simpl; lia). reflexivity.
Qed.

Lemma update_plot_ignores_extra_sliders_witness :
  @update_plot demo_pandas
      ([VNum (decimal 4627 1); VNum (of_Z 560)] ++ [VNone; VNum (of_Z 1)])
      ["Case 1"]
    = @update_plot demo_pandas [VNum (decimal 4627 1); VNum (of_Z 560)]
        ["Case 1"].
Proof.
  apply (@update_plot_ignores_extra_sliders demo_pandas). simpl. lia.
Defined.

(** X10. Whatever the selection, repeated identifiers included: an
    identifier that is not selected has no entry in the cursor map, and a
    selected identifier gets the two values of its last position in the
    selection. *)
Theorem cursor_map_last_occurrence (sel : list string) (sv : list value)
    (cm : gmap string (value * value)) :
  fill_cursor_map 0 sel sv ∅ = Ok cm ->
  (forall k, k ∉ sel -> cursors_of cm k = Raise KeyError) /\
  (forall j k,
     sel !! j = Some k ->
     (forall j', j < j' -> sel !! j' <> Some k) ->
     exists c1 c2,
       sv !! (2 * j) = Some c1 /\ sv !! (2 * j + 1) = Some c2 /\
       cursors_of cm k = Ok (c1, c2)).
Proof.
  intros Hcm. destruct (fill_cursor_map_lookup _ _ _ _ _ Hcm) as [Hout Hin].
  split.
  - intros k Hk. unfold cursors_of. rewrite (Hout k Hk), lookup_empty.
    reflexivity.
  - intros j k Hj Hlast.
    destruct (Hin j k Hj Hlast) as (c1 & c2 & H1 & H2 & H3).
    exists c1, c2. unfold cursors_of. rewrite H3. simpl in H1, H2. auto.
Qed.

Lemma cursor_map_last_occurrence_witness :
  exists cm,
    fill_cursor_map 0 ["Blank"; "Blank"]
      [VNum (of_Z 460); VNum (of_Z 470); VNum (of_Z 480); VNum (of_Z 490)] ∅
      = Ok cm /\
    cursors_of cm "Blank" = Ok (VNum (of_Z 480), VNum (of_Z 490)) /\
    cursors_of cm "Case 1" = Raise KeyError.
Proof.
  eexists. split; [reflexivity|].
  match goal with
  | |- cursors_of ?cm _ = _ /\ _ =>
      destruct (cursor_map_last_occurrence ["Blank"; "Blank"]
                  [VNum (of_Z 460); VNum (of_Z 470); VNum (of_Z 480);
                   VNum (of_Z 490)] cm eq_refl) as [Hout Hin]
  end.
  split.
  - destruct (Hin 1 "Blank" eq_refl) as (c1 & c2 & H1 & H2 & H3).
    + intros [|[|j']] Hlt; simpl; try lia; discriminate.
    + simpl in H1, H2. injection H1 as <-. injection H2 as <-. exact H3.
  - apply Hout. intros Hk.
    repeat (apply elem_of_cons in Hk as [Hk|Hk]; [discriminate Hk|]).
    apply elem_of_nil in Hk. contradiction.
Defined.

(** ** More on the plot loop *)

Section FigureProperties.

Context {pd : Pandas}.

Lemma yields_curve_true (k : string) :
  yields_curve k = true ->
  exists case data,
    cases !! k = Some case /\
    load_spectra (file case) = Some data /\
    frame_empty data = false.
Proof.
  unfold yields_curve, registered, spectrum_unavailable.
  destruct (cases !! k) as [case|]; [|discriminate].
  destruct (load_spectra (file case)) as [data|] eqn:Hl; [|discriminate].
  destruct (frame_empty data) eqn:Hne; [discriminate|].
  intros _. exists case, data. auto.
Qed.

Lemma curve_of_skipped (k : string) :
  yields_curve k = false -> curve_of k = [].
Proof.
  unfold yields_curve, registered, spectrum_unavailable, curve_of.
  destruct (cases !! k) as [case|]; [|reflexivity].
  destruct (load_spectra (file case)) as [data|]; [|reflexivity].
  destruct (frame_empty data); [reflexivity | discriminate].
Qed.

(** What a case that is not skipped does when it does not raise. *)
Lemma plot_case_inv (cm : gmap string (value * value))
    (st st' : figure * list string) (k : string) (case : case_info)
    (data : frame) :
  cases !! k = Some case ->
  load_spectra (file case) = Some data ->
  frame_empty data = false ->
  plot_case cm st k = Ok st' ->
  exists c1 c2 idx1 idx2 i1 i2 text1 text2 d,
    cursors_of cm k = Ok (c1, c2) /\
    nearest_label data c1 = Ok idx1 /\
    nearest_label data c2 = Ok idx2 /\
    intensity_at data idx1 = Ok i1 /\
    intensity_at data idx2 = Ok i2 /\
    cursor_text c1 = Ok text1 /\
    cursor_text c2 = Ok text2 /\
    delta_summary c1 c2 i1 i2 = Ok d /\
    traces (fst st') = (traces (fst st) ++ curve_of k)%list /\
    map (fun s => (shape_x0 s, shape_x1 s, shape_y0 s)) (shapes (fst st'))
      = (map (fun s => (shape_x0 s, shape_x1 s, shape_y0 s)) (shapes (fst st))
         ++ [(c1, c1, of_Z 0); (c2, c2, of_Z 0)])%list /\
    map annotation_text (annotations (fst st'))
      = (map annotation_text (annotations (fst st)) ++ [text1; text2])%list /\
    snd st' = (snd st ++ [d])%list.
Proof.
  intros Hcase Hload Hne H. unfold plot_case in H. unfold curve_of.
  rewrite Hcase, Hload, Hne in *. bind_inv H. injection H as <-.
  destruct a as [c1 c2]. simpl in *.
  exists c1, c2, a0, a1, a2, a3, a4, a5, a6.
  rewrite !map_app. simpl. repeat split; auto;
    rewrite <- app_assoc; reflexivity.
Qed.

Lemma for_each_plot_case_figure (cm : gmap string (value * value))
    (sel : list string) :
  forall st st',
    for_each (plot_case cm) st sel = Ok st' ->
    traces (fst st') = (traces (fst st) ++ flat_map curve_of sel)%list /\
    length (shapes (fst st'))
      = length (shapes (fst st)) + 2 * length (flat_map curve_of sel) /\
    length (annotations (fst st'))
      = length (annotations (fst st)) + 2 * length (flat_map curve_of sel) /\
    length (snd st')
      = length (snd st) + length (flat_map curve_of sel) /\
    (Forall vertical_from_zero (shapes (fst st)) ->
     Forall vertical_from_zero (shapes (fst st'))).
Proof.
  induction sel as [|k sel IH]; intros st st' H; simpl in H.
  - injection H as <-. simpl. rewrite app_nil_r. repeat split; auto; lia.
  - bind_inv H. destruct (IH _ _ H) as (Ht & Hs & Ha & Hd & Hv).
    simpl flat_map. destruct (yields_curve k) eqn:Hk.
    + destruct (yields_curve_true k Hk) as (case & data & Hc & Hl & Hne).
      destruct (plot_case_inv _ _ _ _ _ _ Hc Hl Hne E)
        as (c1 & c2 & idx1 & idx2 & i1 & i2 & t1 & t2 & d & _ & _ & _ & _
            & _ & _ & _ & _ & Ht1 & Hs1 & Ha1 & Hd1).
      assert (length (curve_of k) = 1) as Hone.
      { unfold curve_of. rewrite Hc, Hl, Hne. reflexivity. }
      apply (f_equal (@length _)) in Ha1 as Hla.
      apply (f_equal (@length _)) in Hs1 as Hls.
      rewrite length_app, !length_map in Hla, Hls. simpl in Hla, Hls.
      rewrite Ht, Ht1, Hs, Ha, Hd, Hd1, Hla, Hls, <- app_assoc.
      rewrite !length_app, Hone. simpl.
      repeat split; try lia. intros Hst. apply Hv.
      apply Forall_forall. intros s Hs0.
      set (f := fun s => (shape_x0 s, shape_x1 s, shape_y0 s)) in *.
      assert (f s ∈ map f (shapes (fst a))) as Hs'
        by (apply (list_elem_of_fmap_2 f); exact Hs0).
      rewrite Hs1 in Hs'. apply elem_of_app in Hs' as [Hs'|Hs'].
      * apply list_elem_of_fmap in Hs' as (s1 & Heq & Hs1').
        rewrite Forall_forall in Hst. specialize (Hst s1 Hs1').
        unfold vertical_from_zero, f in *.
        injection Heq as -> -> ->. exact Hst.
      * unfold vertical_from_zero, f in *.
        repeat (apply elem_of_cons in Hs' as [Hs'|Hs'];
                [injection Hs' as -> -> ->; split; reflexivity|]).
        apply elem_of_nil in Hs'. contradiction.
    + rewrite (plot_case_no_curve _ _ _ Hk) in E. injection E as <-.
      rewrite (curve_of_skipped k Hk). simpl.
      repeat split; assumption.
Qed.

(** X11. When the composition returns, the curves of the figure are, in
    the order of the selection, the loaded samples of the selected cases
    that are not skipped, each with the colour and the description its
    case has in the registry; repeated identifiers give repeated curves. *)
Theorem update_plot_curves (sv : list value) (sel : list string)
    (fig : figure) (diffs : list string) :
  update_plot sv sel = Ok (fig, diffs) ->
  traces fig = flat_map curve_of sel.
Proof.
  unfold update_plot. intros H. bind_inv H. injection H as <- <-.
  destruct (for_each_plot_case_figure _ _ _ _ E0) as (Ht & _).
  simpl in *. exact Ht.
Qed.

(** X12. When the composition returns, the figure holds two markers and
    two wavelength labels for each curve, every marker is a vertical line
    that starts at intensity zero, and the layout is set. *)
Theorem update_plot_markers (sv : list value) (sel : list string)
    (fig : figure) (diffs : list string) :
  update_plot sv sel = Ok (fig, diffs) ->
  length (shapes fig) = 2 * length (traces fig) /\
  length (annotations fig) = 2 * length (traces fig) /\
  Forall vertical_from_zero (shapes fig) /\
  fig_layout fig = fig_layout (update_layout new_figure).
Proof.
  unfold update_plot. intros H. bind_inv H. injection H as <- <-.
  destruct (for_each_plot_case_figure _ _ _ _ E0) as (Ht & Hs & Ha & _ & Hv).
  simpl in *. rewrite Ht, Hs, Ha. repeat split; try lia.
  apply Hv. constructor.
Qed.

End FigureProperties.

Lemma update_plot_curves_witness :
  exists fig diffs,
    @update_plot demo_pandas
        [VNum (of_Z 500); VNum (of_Z 560); VNum (of_Z 500); VNum (of_Z 560)]
        ["Case 2"; "Case 1"] = Ok (fig, diffs) /\
    traces fig = @curve_of demo_pandas "Case 1".
Proof.
  eexists. eexists. split; [vm_compute; reflexivity|].
  match goal with
  | |- traces ?fig = _ =>
      rewrite (@update_plot_curves demo_pandas
                 [VNum (of_Z 500); VNum (of_Z 560); VNum (of_Z 500);
                  VNum (of_Z 560)] ["Case 2"; "Case 1"] fig
                 ["Δλ = 60.00 nm, ΔI = 4.35%"])
  end; vm_compute; reflexivity.
Defined.

Lemma update_plot_markers_witness :
  exists fig diffs,
    @update_plot demo_pandas [VNum (of_Z 500); VNum (of_Z 560)] ["Case 1"]
      = Ok (fig, diffs) /\
    length (shapes fig) = 2 * length (traces fig).
Proof.
  eexists. eexists. split; [vm_compute; reflexivity|].
  match goal with
  | |- length (shapes ?fig) = _ =>
      apply (@update_plot_markers demo_pandas
               [VNum (of_Z 500); VNum (of_Z 560)] ["Case 1"] fig
               ["Δλ = 60.00 nm, ΔI = 4.35%"])
  end.
  vm_compute. reflexivity.
Defined.

(** ** Missing cursor values *)

Lemma for_each_raises {S A : Type} (body : S -> A -> result S) (a : A)
    (l : list A) :
  a ∈ l ->
  (forall st, exists e, body st a = Raise e) ->
  forall st, exists e, for_each body st l = Raise e.
Proof.
  intros Ha Hraise. induction l as [|b l IH]; intros st.
  - apply elem_of_nil in Ha. contradiction.
  - simpl. destruct (body st b) as [st'|e] eqn:Hb; simpl; [|eauto].
    apply elem_of_cons in Ha as [->|Ha].
    + destruct (Hraise st) as [e He]. congruence.
    + apply IH, Ha.
Qed.

Lemma plot_case_missing_cursor {pd : Pandas}
    (cm : gmap string (value * value)) (st : figure * list string)
    (k : string) (c1 c2 : value) :
  yields_curve k = true ->
  cm !! k = Some (c1, c2) ->
  c1 = VNone \/ c2 = VNone ->
  exists e, plot_case cm st k = Raise e.
Proof.
  intros Hk Hcm Hnone.
  destruct (yields_curve_true k Hk) as (case & data & Hc & Hl & Hne).
  unfold plot_case, cursors_of. rewrite Hc, Hl, Hne, Hcm. simpl.
  destruct Hnone as [-> | ->].
  - exists TypeError. reflexivity.
  - destruct (nearest_label data c1); simpl; eauto.
Qed.

(** X13. A missing cursor value ([None], as an emptied numeric entry
    leaves after a reconciliation) at either slot of a selected case that
    is not skipped makes the composition raise: no figure is returned. *)
Theorem update_plot_missing_cursor {pd : Pandas} (sv : list value)
    (sel : list string) (j : nat) (k : string) :
  sel !! j = Some k ->
  (forall j', j < j' -> sel !! j' <> Some k) ->
  yields_curve k = true ->
  sv !! (2 * j) = Some VNone \/ sv !! (2 * j + 1) = Some VNone ->
  exists e, update_plot sv sel = Raise e.
Proof.
  intros Hj Hlast Hk Hnone. unfold update_plot.
  destruct (fill_cursor_map 0 sel sv ∅) as [cm|e] eqn:Hcm; [|simpl; eauto].
  simpl. destruct (fill_cursor_map_lookup _ _ _ _ _ Hcm) as [_ Hin].
  destruct (Hin j k Hj Hlast) as (c1 & c2 & H1 & H2 & H3).
  rewrite Nat.add_0_l in H1, H2.
  destruct (for_each_raises (plot_case cm) k sel) with (st := (new_figure, @nil string))
    as [e He].
  - apply list_elem_of_lookup. eauto.
  - intros st. apply (plot_case_missing_cursor cm st k c1 c2 Hk H3).
    destruct Hnone as [Hn|Hn]; [left|right]; congruence.
  - rewrite He. simpl. eauto.
Qed.

Lemma update_plot_missing_cursor_witness :
  exists e,
    @update_plot demo_pandas [VNum (of_Z 500); VNone] ["Case 1"] = Raise e.
Proof.
  apply (@update_plot_missing_cursor demo_pandas _ _ 0 "Case 1").
  - reflexivity.
  - intros [|j'] Hlt; [lia | discriminate].
  - vm_compute. reflexivity.
  - right. reflexivity.
Defined.

(** ** Subtraction of floats *)

Lemma shr_1_nonneg (mrs : shr_record) :
  (0 <= shr_m mrs)%Z -> (0 <= shr_m (shr_1 mrs))%Z.
Proof.
  destruct mrs as [m r s]. simpl.
  destruct m as [|[p|p|]|[p|p|]]; simpl; lia.
Qed.

Lemma iter_pos_invariant {A : Type} (P : A -> Prop) (f : A -> A) :
  (forall a, P a -> P (f a)) ->
  forall n a, P a -> P (SpecFloat.iter_pos f n a).
Proof.
  intros Hf. induction n as [n IH|n IH|]; intros a Ha; simpl; auto.
Qed.

Lemma shr_fexp_nonneg (m e : Z) (l : location) :
  (0 <= m)%Z -> (0 <= shr_m (fst (shr_fexp prec emax m e l)))%Z.
Proof.
  intros Hm. unfold shr_fexp, shr.
  assert (0 <= shr_m (shr_record_of_loc m l))%Z as H0.
  { destruct l as [|[]]; simpl; exact Hm. }
  destruct (fexp prec emax (Zdigits2 m + e) - e)%Z; simpl; try exact H0.
  apply (iter_pos_invariant (fun r => 0 <= shr_m r)%Z);
    [apply shr_1_nonneg | exact H0].
Qed.

Lemma round_nearest_even_nonneg (m : Z) (l : location) :
  (0 <= m)%Z -> (0 <= round_nearest_even m l)%Z.
Proof.
  intros Hm. destruct l as [|[]]; simpl; try lia.
  destruct (Z.even m); lia.
Qed.

Lemma binary_round_aux_not_nan (sx : bool) (m e : Z) (l : location) :
  (0 <= m)%Z -> is_nan (binary_round_aux prec emax sx m e l) = false.
Proof.
  intros Hm. unfold binary_round_aux.
  pose proof (shr_fexp_nonneg m e l Hm) as H1.
  destruct (shr_fexp prec emax m e l) as [mrs' e'] eqn:E1. simpl in H1.
  pose proof (shr_fexp_nonneg _ e' loc_Exact
                (round_nearest_even_nonneg _ (loc_of_shr_record mrs') H1))
    as H2.
  destruct (shr_fexp prec emax _ e' loc_Exact) as [mrs'' e''] eqn:E2.
  simpl in H2. destruct (shr_m mrs'') as [|p|p]; try reflexivity.
  - destruct (e'' <=? emax - prec)%Z; reflexivity.
  - lia.
Qed.

Lemma binary_normalize_not_nan (m e : Z) (sz : bool) :
  is_nan (binary_normalize prec emax m e sz) = false.
Proof.
  unfold binary_normalize, binary_round.
  destruct m as [|p|p]; [reflexivity| |];
    destruct (shl_align _ _ _) as [mz ez];
    apply binary_round_aux_not_nan; lia.
Qed.

(** The distance of a number to a finite number is a number. *)
Lemma fabs_fsub_not_nan (a w : float) :
  is_nan a = false -> is_finite w = true -> is_nan (fabs (fsub a w)) = false.
Proof.
  intros Ha Hw.
  assert (is_nan (fsub a w) = false) as H.
  { unfold fsub, SFsub.
    destruct a as [sa|sa| |sa ma ea], w as [sw|sw| |sw mw ew];
      try discriminate; try reflexivity.
    - destruct sa, sw; reflexivity.
    - apply binary_normalize_not_nan. }
  unfold fabs. destruct (fsub a w); try discriminate; reflexivity.
Qed.

Lemma fabs_binary_round_aux (s s' : bool) (m e : Z) (l : location) :
  fabs (binary_round_aux prec emax s m e l)
  = fabs (binary_round_aux prec emax s' m e l).
Proof.
  unfold binary_round_aux.
  destruct (shr_fexp prec emax m e l) as [mrs' e'].
  destruct (shr_fexp prec emax _ e' loc_Exact) as [mrs'' e''].
  destruct (shr_m mrs''); try reflexivity.
  destruct (e'' <=? emax - prec)%Z; reflexivity.
Qed.

Lemma fabs_binary_normalize_opp (m e : Z) :
  fabs (binary_normalize prec emax (- m) e false)
  = fabs (binary_normalize prec emax m e false).
Proof.
  unfold binary_normalize, binary_round.
  destruct m as [|p|p]; simpl; try reflexivity;
    destruct (shl_align _ _ _) as [mz ez]; apply fabs_binary_round_aux.
Qed.

Lemma fabs_fsub_sym (a b : float) : fabs (fsub a b) = fabs (fsub b a).
Proof.
  unfold fsub, SFsub.
  destruct a as [sa|sa| |sa ma ea], b as [sb|sb| |sb mb eb];
    try reflexivity;
    try (destruct sa, sb; reflexivity);
    try (destruct sa; reflexivity); try (destruct sb; reflexivity).
  rewrite (Z.min_comm eb ea).
  rewrite <- fabs_binary_normalize_opp. f_equal. f_equal. lia.
Qed.

(** X14. The delta output does not depend on the order of the two
    cursors: exchanging the cursors, together with their intensities,
    gives the same string, or the same error. *)
Theorem delta_summary_symmetric (c1 c2 : value) (i1 i2 : float) :
  delta_summary c1 c2 i1 i2 = delta_summary c2 c1 i2 i1.
Proof.
  unfold delta_summary.
  destruct c1 as [|x1], c2 as [|x2]; simpl; try reflexivity.
  rewrite (fabs_fsub_sym x2 x1), (fabs_fsub_sym i2 i1). reflexivity.
Qed.

(** ** More on the nearest-sample resolution *)

Lemma distances_not_nan (data : frame) (w : float) :
  (forall r, r ∈ data -> is_nan (nm r) = false) ->
  is_finite w = true ->
  no_nan (map (distance w) data).
Proof.
  intros Hnm Hw v Hv. apply list_elem_of_fmap in Hv as (r & -> & Hr).
  apply fabs_fsub_not_nan; [apply Hnm, Hr | exact Hw].
Qed.

Lemma iloc_member (data : frame) (key : index_label) (r : row) :
  iloc data key = Ok r -> r ∈ data.
Proof.
  assert (forall n, py_index data n = Ok r -> r ∈ data) as Hpos.
  { intros n H. unfold py_index in H.
    match type of H with
    | match ?x with _ => _ end = _ => destruct x as [r'|] eqn:Hr
    end; [|discriminate H].
    injection H as <-. apply list_elem_of_lookup. eauto. }
  unfold iloc. destruct key as [z|text]; [|discriminate].
  destruct (0 <=? z)%Z; [apply Hpos|].
  destruct (- Z.of_nat (length data) <=? z)%Z; [apply Hpos | discriminate].
Qed.




(** X16. The resolution never interpolates: an intensity it returns is
    the intensity of a row of the frame. *)
Theorem resolve_returns_tabulated (data : frame) (cursor : value)
    (v : float) :
  resolve data cursor = Ok v ->
  exists r, r ∈ data /\ percentage r = v.
Proof.
  unfold resolve. intros H. bind_inv H.
  unfold intensity_at in H. bind_inv H. injection H as <-.
  exists a0. split; [|reflexivity]. apply (iloc_member _ _ _ E0).
Qed.

Lemma resolve_returns_tabulated_witness :
  exists r,
    r ∈ numeric_frame (pd := demo_pandas) clean_table /\
    percentage r = decimal 80 1.
Proof.
  apply (resolve_returns_tabulated _ (VNum (of_Z 570))).
  vm_compute. reflexivity.
Defined.

(** ** Labels of a loaded frame *)

Lemma filter_labels_sublist {A : Type} (p : index_label * A -> bool)
    (rows : list (index_label * A)) :
  sublist (map fst (List.filter p rows)) (map fst rows).
Proof.
  induction rows as [|r rows IH]; [constructor|].
  simpl. destruct (p r); simpl.
  - apply sublist_skip, IH.
  - apply sublist_cons, IH.
Qed.

Lemma filter_range_positions {A : Type} (p : index_label * A -> bool)
    (rows : list (index_label * A)) :
  forall a q x,
    map fst rows = map position_label (seq a (length rows)) ->
    List.filter p rows !! q = Some x ->
    exists i, fst x = position_label i /\ a + q <= i /\ i < a + length rows.
Proof.
  induction rows as [|r rows IH]; intros a q x Hlabels Hq; [discriminate Hq|].
  simpl in Hlabels. injection Hlabels as Hr Hrest. simpl in Hq.
  destruct (p r).
  - destruct q as [|q]; simpl in Hq.
    + injection Hq as <-. exists a. simpl. repeat split; [exact Hr | lia | lia].
    + destruct (IH (S a) q x Hrest Hq) as (i & Hi & Hlo & Hhi).
      exists i. simpl. repeat split; [exact Hi | lia | lia].
  - destruct (IH (S a) q x Hrest Hq) as (i & Hi & Hlo & Hhi).
    exists i. simpl. repeat split; [exact Hi | lia | lia].
Qed.

Lemma filter_range_increasing {A : Type} (p : index_label * A -> bool)
    (rows : list (index_label * A)) :
  forall a q q' x x',
    map fst rows = map position_label (seq a (length rows)) ->
    q < q' ->
    List.filter p rows !! q = Some x ->
    List.filter p rows !! q' = Some x' ->
    exists i i',
      fst x = position_label i /\ fst x' = position_label i' /\ i < i'.
Proof.
  induction rows as [|r rows IH]; intros a q q' x x' Hlabels Hlt Hq Hq';
    [discriminate Hq|].
  simpl in Hlabels. injection Hlabels as Hr Hrest. simpl in Hq, Hq'.
  destruct (p r).
  - destruct q' as [|q']; [lia|]. simpl in Hq'.
    destruct q as [|q]; simpl in Hq.
    + injection Hq as <-.
      destruct (filter_range_positions p rows (S a) q' x' Hrest Hq')
        as (i' & Hi' & Hlo & _).
      exists a, i'. repeat split; [exact Hr | exact Hi' | lia].
    + apply (IH (S a) q q' x x' Hrest); [lia | exact Hq | exact Hq'].
  - apply (IH (S a) q q' x x' Hrest Hlt Hq Hq').
Qed.

Lemma position_label_inj (n n' : nat) :
  position_label n = position_label n' -> n = n'.
Proof. unfold position_label. intros H. injection H as H. lia. Qed.

Section LoadedFrames.

Context {pd : Pandas}.

Lemma loaded_row_source (rows : list (index_label * (string * string)))
    (p : nat) (r : row) :
  dropna (convert_rows rows) !! p = Some r ->
  exists x,
    List.filter (fun x => negb (fails_conversion rows x)) rows !! p = Some x /\
    fst x = label r.
Proof.
  intros Hr.
  assert (map label (dropna (convert_rows rows)) !! p = Some (label r)) as H
    by (apply list_lookup_fmap_Some; eauto).
  unfold convert_rows in H. rewrite dropna_convert_labels in H.
  apply list_lookup_fmap_Some in H as (x & Hx & Hp). eauto.
Qed.

(** X17. In a frame returned by the loader the labels are, in their
    order, labels of the rows pandas read. For a file whose lines have two
    fields, whose rows pandas labels by position, the labels of the frame
    increase strictly, and the label of the row at position [p] is a
    position not before [p] and within the rows read. *)
Theorem load_spectra_labels (file_path : string)
    (rows : list (index_label * (string * string))) :
  read_csv file_path = Some rows ->
  exists data,
    load_spectra file_path = Some data /\
    sublist (map label data) (map fst rows) /\
    (range_labelled rows = true ->
     (forall p r, data !! p = Some r ->
        exists n, label r = position_label n /\ p <= n /\ n < length rows) /\
     (forall p q r r' n n',
        p < q -> data !! p = Some r -> data !! q = Some r' ->
        label r = position_label n -> label r' = position_label n' ->
        n < n')).
Proof.
  intros Hread. unfold load_spectra. rewrite Hread.
  eexists. split; [reflexivity|]. split.
  - unfold convert_rows. rewrite dropna_convert_labels.
    apply filter_labels_sublist.
  - intros Hrange. unfold range_labelled in Hrange.
    apply range_labels_from_seq in Hrange. rewrite length_map in Hrange.
    split.
    + intros p r Hr. destruct (loaded_row_source _ _ _ Hr) as (x & Hx & <-).
      destruct (filter_range_positions _ rows 0 p x Hrange Hx)
        as (i & Hi & Hlo & Hhi).
      exists i. repeat split; [exact Hi | lia | lia].
    + intros p q r r' n n' Hpq Hr Hr' Hn Hn'.
      destruct (loaded_row_source _ _ _ Hr) as (x & Hx & Hlx).
      destruct (loaded_row_source _ _ _ Hr') as (x' & Hx' & Hlx').
      destruct (filter_range_increasing _ rows 0 p q x x' Hrange Hpq Hx Hx')
        as (i & i' & Hi & Hi' & Hlt).
      rewrite Hlx, Hn in Hi. rewrite Hlx', Hn' in Hi'.
      apply position_label_inj in Hi. apply position_label_inj in Hi'. lia.
Qed.

Lemma clean_rows_distances (rows : list (index_label * (string * string)))
    (w : float) :
  clean_rows rows = true ->
  small w = true ->
  no_nan (map (distance w) (convert_rows rows)).
Proof.
  intros Hclean Hw.
  destruct (clean_rows_frame rows Hclean) as (_ & _ & _ & Hcells).
  apply distances_not_nan; [|apply small_finite, Hw].
  intros r Hr. apply small_not_nan. apply (Hcells r Hr).
Qed.


Lemma plot_case_clean (cm : gmap string (value * value))
    (st : figure * list string) (k : string) (case : case_info)
    (rows : list (index_label * (string * string))) (x1 x2 : float) :
  cases !! k = Some case ->
  read_csv (file case) = Some rows ->
  clean_rows rows = true ->
  cm !! k = Some (VNum x1, VNum x2) ->
  small x1 = true ->
  small x2 = true ->
  exists fig' p1 r1 p2 r2 d,
    first_nearest (convert_rows rows) x1 p1 r1 /\
    first_nearest (convert_rows rows) x2 p2 r2 /\
    delta_summary (VNum x1) (VNum x2) (percentage r1) (percentage r2) = Ok d /\
    plot_case cm st k = Ok (fig', (snd st ++ [d])%list).
Proof.
  intros Hcase Hread Hclean Hcm Hx1 Hx2.
  pose proof (load_spectra_clean _ _ Hread Hclean) as Hload.
  destruct (clean_rows_frame rows Hclean) as (Hdata & Hidx & _ & _).
  assert (forall w, small w = true ->
            exists p r,
              first_nearest (convert_rows rows) w p r /\
              nearest_label (convert_rows rows) (VNum w)
                = Ok (position_label p) /\
              intensity_at (convert_rows rows) (position_label p)
                = Ok (percentage r))
    as Hresolve.
  { intros w Hw.
    destruct (resolve_range_index (convert_rows rows) w Hdata Hidx)
      as (p & r & Hfirst & Hlabel & Hres).
    - apply clean_rows_distances; assumption.
    - exists p, r. split; [exact Hfirst|]. split; [exact Hlabel|].
      unfold resolve in Hres. rewrite Hlabel in Hres. exact Hres. }
  destruct (Hresolve x1 Hx1) as (p1 & r1 & Hf1 & Hl1 & Hi1).
  destruct (Hresolve x2 Hx2) as (p2 & r2 & Hf2 & Hl2 & Hi2).
  unfold plot_case, cursors_of. rewrite Hcase, Hload, Hcm.
  destruct (convert_rows rows) as [|row0 rest] eqn:Hframe; [congruence|].
  simpl frame_empty. cbv iota. simpl bind at 1. simpl fst. simpl snd.
  rewrite Hl1. simpl bind at 1. rewrite Hl2. simpl bind at 1.
  rewrite Hi1. simpl bind at 1. rewrite Hi2. simpl.
  eexists _, p1, r1, p2, r2, _.
  split; [exact Hf1|]. split; [exact Hf2|]. split; reflexivity.
Qed.


End LoadedFrames.

Lemma load_spectra_labels_witness :
  exists data,
    @load_spectra demo_pandas "data/t-white-blank.txt" = Some data /\
    forall p r, data !! p = Some r ->
      exists n, label r = position_label n /\ p <= n /\ n < 4.
Proof.
  destruct (@load_spectra_labels demo_pandas "data/t-white-blank.txt"
              (range_indexed headed_table) eq_refl)
    as (data & Hload & _ & Hrange).
  exists data. split; [exact Hload|]. apply (Hrange eq_refl).
Defined.



(** ** The composition on clean files *)

Lemma for_each_appends {A : Type} (body : figure * list string -> A ->
                                          result (figure * list string))
    (l : list A) :
  (forall a st, a ∈ l ->
     exists fig' d, body st a = Ok (fig', (snd st ++ [d])%list)) ->
  forall st, exists st',
    for_each body st l = Ok st' /\
    length (snd st') = length (snd st) + length l.
Proof.
  induction l as [|a l IH]; intros Hbody st.
  - exists st. simpl. split; [reflexivity | lia].
  - destruct (Hbody a st) as (fig' & d & Ha); [left|].
    simpl. rewrite Ha. simpl.
    destruct (IH (fun a' st' Hin => Hbody a' st' (list_elem_of_further _ _ _ Hin))
                (fig', (snd st ++ [d])%list)) as (st' & Hst' & Hlen).
    exists st'. split; [exact Hst'|].
    rewrite Hlen. simpl. rewrite length_app. simpl. lia.
Qed.

Lemma fill_cursor_map_values (sel : list string) (sv : list value)
    (cm : gmap string (value * value)) (k : string) :
  fill_cursor_map 0 sel sv ∅ = Ok cm ->
  k ∈ sel ->
  exists c1 c2, cm !! k = Some (c1, c2) /\ c1 ∈ sv /\ c2 ∈ sv.
Proof.
  intros Hcm Hk. destruct (last_occurrence _ _ Hk) as (j & Hj & Hlast).
  destruct (fill_cursor_map_lookup _ _ _ _ _ Hcm) as [_ Hin].
  destruct (Hin j k Hj Hlast) as (c1 & c2 & H1 & H2 & H3).
  exists c1, c2. split; [exact H3|].
  split; apply list_elem_of_lookup; eauto.
Qed.

Lemma small_number_value (v : value) :
  small_number v = true -> exists x, v = VNum x /\ small x = true.
Proof. destruct v as [|x]; [discriminate | eauto]. Qed.

(** X20. When every selected case is registered with a clean file and
    the slider list holds two numbers of small magnitude per selected
    case, the composition does not raise: it returns a figure with one
    curve and one delta output per selected case. *)
Theorem update_plot_on_clean_files {pd : Pandas} (sv : list value)
    (sel : list string) :
  2 * length sel <= length sv ->
  (forall v, v ∈ sv -> small_number v = true) ->
  (forall k, k ∈ sel ->
     exists case rows,
       cases !! k = Some case /\
       read_csv (file case) = Some rows /\
       clean_rows rows = true) ->
  exists fig diffs,
    update_plot sv sel = Ok (fig, diffs) /\
    length diffs = length sel /\
    length (traces fig) = length sel.
Proof.
  intros Hlen Hsv Hsel. unfold update_plot.
  destruct (fill_cursor_map_ok sel 0 sv ∅) as [cm Hcm]; [simpl; lia|].
  rewrite Hcm. simpl bind at 1.
  destruct (for_each_appends (plot_case cm) sel) with (st := (new_figure, @nil string))
    as (st' & Hst' & Hdiffs).
  { intros k st Hk.
    destruct (Hsel k Hk) as (case & rows & Hcase & Hread & Hclean).
    destruct (fill_cursor_map_values _ _ _ _ Hcm Hk)
      as (c1 & c2 & Hk' & Hc1 & Hc2).
    destruct (small_number_value _ (Hsv c1 Hc1)) as (x1 & -> & Hx1).
    destruct (small_number_value _ (Hsv c2 Hc2)) as (x2 & -> & Hx2).
    destruct (plot_case_clean cm st k case rows x1 x2
                Hcase Hread Hclean Hk' Hx1 Hx2)
      as (fig' & _ & _ & _ & _ & d & _ & _ & _ & H).
    eauto. }
  rewrite Hst'. simpl.
  exists (update_layout (fst st')), (snd st').
  split; [reflexivity|]. split; [exact Hdiffs|].
  destruct (for_each_plot_case_counts _ _ _ _ Hst') as [Ht Hd].
  simpl in *. lia.
Qed.

Lemma update_plot_on_clean_files_witness :
  exists fig diffs,
    @update_plot demo_pandas [VNum (of_Z 500); VNum (of_Z 600)] ["Case 1"]
      = Ok (fig, diffs) /\
    length diffs = 1 /\ length (traces fig) = 1.
Proof.
  apply (@update_plot_on_clean_files demo_pandas
           [VNum (of_Z 500); VNum (of_Z 600)] ["Case 1"]).
  - simpl. lia.
  - intros v Hv. repeat (apply elem_of_cons in Hv as [->|Hv]);
      [reflexivity .. | apply elem_of_nil in Hv; contradiction].
  - intros k Hk. apply list_elem_of_singleton in Hk as ->.
    exists {| file := "data/t-1white.txt"; color := "red";
              description := "10µL FITC-BSA with 290µL water" |},
           (range_indexed clean_table).
    split; [vm_compute; reflexivity|]. split; [reflexivity|].
    vm_compute. reflexivity.
Defined.

(** ** Generated controls as triggers *)

Lemma default_cursors_member (sel : list string) (k : string) (n : nat)
    (v : value) :
  (k, n, v) ∈ flat_map default_cursors sel ->
  k ∈ sel /\ (n = 1 \/ n = 2).
Proof.
  rewrite list_elem_of_In, in_flat_map. intros (k' & Hk' & Hin).
  apply list_elem_of_In in Hk'. unfold default_cursors in Hin.
  destruct Hin as [Heq|[Heq|[]]]; injection Heq as -> <- _; auto.
Qed.

(** X21. Every slider and every numeric entry that the controls callback
    generates is recognised by the reconciliation: when a generated slider
    fires first, the slider values are returned for both representations,
    and when a generated numeric entry fires first, the entry values are. *)
Theorem generated_controls_triggers (sel : list string)
    (cs : list component) (k : string) (n : nat) (v : value)
    (rest : list string) (sv iv : list value) (cd : option click) :
  update_controls sel = Ok cs ->
  ((k, n, v) ∈ flat_map (cursor_controls "cursor-slider") cs ->
   sync_inputs (cursor_prop "cursor-slider" k n :: rest) sv iv cd
     = Ok (sv, sv)) /\
  ((k, n, v) ∈ flat_map (cursor_controls "cursor-input") cs ->
   sync_inputs (cursor_prop "cursor-input" k n :: rest) sv iv cd
     = Ok (iv, iv)).
Proof.
  intros Hcs.
  destruct (update_controls_content _ _ Hcs) as (-> & -> & _).
  assert ((k, n, v) ∈ flat_map default_cursors sel ->
          k ∈ case_keys /\ (n = 1 \/ n = 2)) as Hkn.
  { intros Hin. destruct (default_cursors_member _ _ _ _ Hin) as [Hk Hn].
    split; [|exact Hn].
    apply case_keys_registered.
    apply (update_controls_all_registered _ _ Hcs k Hk). }
  split; intros Hin; destruct (Hkn Hin) as [Hk [-> | ->]];
    unfold case_keys in Hk;
    repeat (apply elem_of_cons in Hk as [->|Hk]); try reflexivity;
    apply elem_of_nil in Hk; contradiction.
Qed.

Lemma generated_controls_triggers_witness :
  sync_inputs [cursor_prop "cursor-input" "Case 2" 2]
      [VNum (of_Z 500); VNum (of_Z 560)] [VNum (of_Z 500); VNone] None
    = Ok ([VNum (of_Z 500); VNone], [VNum (of_Z 500); VNone]).
Proof.
  destruct (update_controls_ok ["Case 2"]) as [cs Hcs].
  - intros k Hk. apply list_elem_of_singleton in Hk as ->. reflexivity.
  - apply (generated_controls_triggers ["Case 2"] cs "Case 2" 2
             (VNum (of_Z 560)) [] _ _ None Hcs).
    destruct (update_controls_content _ _ Hcs) as (_ & -> & _).
    right. left.
Defined.

(** ** Delta outputs and delta displays *)

Lemma filter_length_all {A : Type} (p : A -> bool) (l : list A) :
  length (List.filter p l) = length l <-> forall a, a ∈ l -> p a = true.
Proof.
  induction l as [|b l IH]; simpl.
  - split; [|reflexivity]. intros _ a Ha. apply elem_of_nil in Ha.
    contradiction.
  - pose proof (List.filter_length_le p l) as Hle.
    destruct (p b) eqn:Hb; simpl; split.
    + intros H a Ha. apply elem_of_cons in Ha as [->|Ha]; [exact Hb|].
      apply IH; [lia | exact Ha].
    + intros H. f_equal. apply IH. intros a Ha. apply H. right. exact Ha.
    + intros H. lia.
    + intros H. specialize (H b (list_elem_of_here _ _)). congruence.
Qed.

(** X22. The controls callback creates one delta display per selected
    case, and the composition returns one delta output per case that is
    not skipped: never more outputs than displays, and as many outputs as
    displays only when no selected spectrum is unavailable. *)
Theorem delta_outputs_and_displays {pd : Pandas} (sel : list string)
    (cs : list component) (sv : list value) (fig : figure)
    (diffs : list string) :
  update_controls sel = Ok cs ->
  update_plot sv sel = Ok (fig, diffs) ->
  length (flat_map diff_displays cs) = length sel /\
  length diffs <= length (flat_map diff_displays cs) /\
  (length diffs = length (flat_map diff_displays cs) <->
   forall k, k ∈ sel -> spectrum_unavailable k = false).
Proof.
  intros Hcs Hplot.
  destruct (update_controls_content _ _ Hcs) as (_ & _ & ->).
  destruct (update_plot_counts _ _ _ _ Hplot) as [_ Hd]. rewrite Hd.
  split; [reflexivity|]. split; [apply List.filter_length_le|].
  rewrite filter_length_all. split; intros H k Hk.
  - specialize (H k Hk). unfold yields_curve in H.
    apply andb_true_iff in H as [_ H]. apply negb_true_iff, H.
  - unfold yields_curve.
    rewrite (update_controls_all_registered _ _ Hcs k Hk), (H k Hk).
    reflexivity.
Qed.

Lemma delta_outputs_and_displays_witness :
  exists cs,
    update_controls ["Case 2"; "Case 1"] = Ok cs /\
    length (flat_map diff_displays cs) = 2 /\
    length ["Δλ = 60.00 nm, ΔI = 4.35%"] <= length (flat_map diff_displays cs).
Proof.
  destruct (update_controls_ok ["Case 2"; "Case 1"]) as [cs Hcs].
  - intros k Hk. repeat (apply elem_of_cons in Hk as [->|Hk]);
      [reflexivity .. | apply elem_of_nil in Hk; contradiction].
  - assert (exists fig,
              @update_plot demo_pandas
                  [VNum (of_Z 500); VNum (of_Z 560); VNum (of_Z 500);
                   VNum (of_Z 560)] ["Case 2"; "Case 1"]
                = Ok (fig, ["Δλ = 60.00 nm, ΔI = 4.35%"])) as [fig Hfig]
      by (eexists; vm_compute; reflexivity).
    destruct (@delta_outputs_and_displays demo_pandas _ _ _ _ _ Hcs Hfig)
      as (H1 & H2 & _).
    exists cs. split; [exact Hcs|]. split; [exact H1 | exact H2].
Defined.

(** ** Coinciding cursors *)

Lemma fabs_fsub_self (a : float) :
  is_finite a = true -> fabs (fsub a a) = S754_zero false.
Proof.
  destruct a as [s|s| |s m e]; try discriminate; intros _.
  - destruct s; reflexivity.
  - unfold fsub, SFsub, shl_align. rewrite Z.min_id, Z.sub_diag.
    cbn [fst]. rewrite ?Z.sub_diag. reflexivity.
Qed.

Lemma flt_not_fle (a b : float) : flt a b = true -> fle b a = false.
Proof.
  unfold fle, flt, SFleb, SFltb, SFcompare.
  destruct a as [sa|sa| |sa ma ea], b as [sb|sb| |sb mb eb];
    try (destruct sa); try (destruct sb); simpl;
    intros H; try discriminate; try reflexivity; order_cases.
Qed.

Lemma first_nearest_unique (data : frame) (w : float) (p p' : nat)
    (r r' : row) :
  first_nearest data w p r -> first_nearest data w p' r' -> r = r'.
Proof.
  intros (Hr & Hle & Hlt) (Hr' & Hle' & Hlt').
  assert (p = p') as <-.
  { destruct (Nat.lt_trichotomy p p') as [Hlt1|[Heq|Hlt1]]; [|exact Heq|].
    - pose proof (Hlt' p r Hlt1 Hr) as H1.
      apply flt_not_fle in H1. rewrite Hle in H1; [discriminate H1|].
      apply list_elem_of_lookup. eauto.
    - pose proof (Hlt p' r' Hlt1 Hr') as H1.
      apply flt_not_fle in H1. rewrite Hle' in H1; [discriminate H1|].
      apply list_elem_of_lookup. eauto. }
  congruence.
Qed.

Lemma delta_summary_same (w i : float) :
  is_finite w = true ->
  is_finite i = true ->
  delta_summary (VNum w) (VNum w) i i = Ok "Δλ = 0.00 nm, ΔI = 0.00%".
Proof.
  intros Hw Hi. unfold delta_summary. simpl.
  rewrite (fabs_fsub_self w Hw), (fabs_fsub_self i Hi). reflexivity.
Qed.

(** X23. When the two cursors of a case coincide at a finite wavelength
    and the two intensities are one finite number, the delta output
    reports zero for both differences. *)
Theorem delta_summary_coinciding (w i : float) :
  is_finite w = true ->
  is_finite i = true ->
  delta_summary (VNum w) (VNum w) i i = Ok "Δλ = 0.00 nm, ΔI = 0.00%".
Proof. apply delta_summary_same. Qed.

Lemma delta_summary_coinciding_witness :
  delta_summary (VNum (decimal 5123 1)) (VNum (decimal 5123 1))
      (decimal 12345 3) (decimal 12345 3)
    = Ok "Δλ = 0.00 nm, ΔI = 0.00%".
Proof.
  apply delta_summary_coinciding; reflexivity.
Defined.

Lemma for_each_appends_same {A : Type}
    (body : figure * list string -> A -> result (figure * list string))
    (d0 : string) (l : list A) :
  (forall a st, a ∈ l ->
     exists fig', body st a = Ok (fig', (snd st ++ [d0])%list)) ->
  forall st, exists st',
    for_each body st l = Ok st' /\
    snd st' = (snd st ++ replicate (length l) d0)%list.
Proof.
  induction l as [|a l IH]; intros Hbody st.
  - exists st. simpl. rewrite app_nil_r. split; reflexivity.
  - destruct (Hbody a st) as (fig' & Ha); [left|].
    simpl. rewrite Ha. simpl.
    destruct (IH (fun a' st' Hin => Hbody a' st' (list_elem_of_further _ _ _ Hin))
                (fig', (snd st ++ [d0])%list)) as (st' & Hst' & Hd).
    exists st'. split; [exact Hst'|].
    rewrite Hd. simpl. rewrite <- app_assoc. reflexivity.
Qed.

(** X24. A click on the chart at a wavelength of small magnitude,
    followed by the composition on the slider values the reconciliation
    returns: when every selected case is registered with a clean file,
    every delta output reports zero for both differences. *)
Theorem click_collapses_deltas {pd : Pandas} (t : string)
    (rest : list string) (sv iv : list value) (w : float)
    (ps : list point) (sel : list string) :
  contains click_prop t = true ->
  length sv = 2 * length sel ->
  small w = true ->
  (forall k, k ∈ sel ->
     exists case rows,
       cases !! k = Some case /\
       read_csv (file case) = Some rows /\
       clean_rows rows = true) ->
  exists sliders entries fig,
    sync_inputs (t :: rest) sv iv
        (Some {| points := {| point_x := VNum w |} :: ps |})
      = Ok (sliders, entries) /\
    update_plot sliders sel
      = Ok (fig, replicate (length sel) "Δλ = 0.00 nm, ΔI = 0.00%").
Proof.
  intros Hc Hlen Hw Hsel.
  rewrite (sync_inputs_click _ _ _ _ _ Hc). simpl.
  exists (replicate (length sv) (VNum w)), (replicate (length sv) (VNum w)).
  unfold update_plot.
  destruct (fill_cursor_map_ok sel 0 (replicate (length sv) (VNum w)) ∅)
    as [cm Hcm]; [rewrite length_replicate; simpl; lia|].
  rewrite Hcm. simpl bind at 1.
  destruct (for_each_appends_same (plot_case cm) "Δλ = 0.00 nm, ΔI = 0.00%" sel)
    with (st := (new_figure, @nil string)) as (st' & Hst' & Hd).
  { intros k st Hk.
    destruct (Hsel k Hk) as (case & rows & Hcase & Hread & Hclean).
    destruct (fill_cursor_map_values _ _ _ _ Hcm Hk)
      as (c1 & c2 & Hk' & Hc1 & Hc2).
    apply elem_of_replicate in Hc1 as [-> _].
    apply elem_of_replicate in Hc2 as [-> _].
    destruct (plot_case_clean cm st k case rows w w Hcase Hread Hclean
                Hk' Hw Hw)
      as (fig' & p1 & r1 & p2 & r2 & d & Hf1 & Hf2 & Hsum & H).
    rewrite (first_nearest_unique _ _ _ _ _ _ Hf2 Hf1) in Hsum.
    rewrite delta_summary_same in Hsum; [|apply small_finite, Hw|].
    - injection Hsum as <-. eauto.
    - destruct Hf1 as (Hr1 & _).
      destruct (clean_rows_frame rows Hclean) as (_ & _ & _ & Hcells).
      apply small_finite.
      apply (Hcells r1). apply list_elem_of_lookup. eauto. }
  rewrite Hst'. simpl. rewrite Hd. simpl. eauto.
Qed.

Lemma click_collapses_deltas_witness :
  exists sliders entries fig,
    sync_inputs [click_prop] [VNum (of_Z 500); VNum (of_Z 560)]
        [VNum (of_Z 500); VNone]
        (Some {| points := [ {| point_x := VNum (of_Z 600) |} ] |})
      = Ok (sliders, entries) /\
    @update_plot demo_pandas sliders ["Case 1"]
      = Ok (fig, replicate 1 "Δλ = 0.00 nm, ΔI = 0.00%").
Proof.
  apply (@click_collapses_deltas demo_pandas click_prop [] _ _ (of_Z 600) []
           ["Case 1"]).
  - reflexivity.
  - reflexivity.
  - reflexivity.
  - intros k Hk. apply list_elem_of_singleton in Hk as ->.
    exists {| file := "data/t-1white.txt"; color := "red";
              description := "10µL FITC-BSA with 290µL water" |},
           (range_indexed clean_table).
    split; [vm_compute; reflexivity|]. split; [reflexivity|].
    vm_compute. reflexivity.
Defined.
